(** * XiaomaPPTGenerator: region store, cropper, table loader and scorer

    A shallow embedding of the decision logic of [src/main.py]:

    - [ImageCropWidget]: the ordered list of drawn rectangles with its
      next-question-number counter ([mouseReleaseEvent], [clear_last],
      [clear_all]), its persistence ([save_regions_config],
      [load_regions_config]) and the cropping of the regions
      ([get_cropped_regions]);
    - [MainWindow.load_excel]: header-row detection and row clean-up;
    - [MainWindow.analyze_questions]: column classification and the
      per-question tally.

    Python objects are modelled by the values the program can observe:
    text as sequences of Unicode code points, integers as [Z], floats as
    IEEE 754 binary64 values ([spec_float] at precision 53), exceptions as
    an error type.  Qt's [QRect] is modelled by its four stored corners,
    C [int]s with their wrap-around.

    The file has the model first (values, Qt geometry, widget, loader,
    analysis, a concrete runtime, example inputs) and the properties
    after it, component by component. *)

From Stdlib Require Import ZArith NArith List String Ascii Bool Lia Permutation Sorted.
From Stdlib Require Import Floats.SpecFloat DecimalString.
Import ListNotations.
Local Open Scope Z_scope.
Set Warnings "-register-all".

(** ** Text *)

(** A Python [str] is a sequence of code points. *)
Definition char := N.
Definition str := list char.

(** Decoding of the UTF-8 bytes of a source literal into code points. *)
Fixpoint utf8_decode (bs : list N) : str :=
  match bs with
  | [] => []
  | b :: r =>
      if (b <? 128)%N then b :: utf8_decode r
      else match r with
      | [] => []
      | c :: r1 =>
          if (b <? 224)%N then ((b - 192) * 64 + (c - 128))%N :: utf8_decode r1
          else match r1 with
          | [] => []
          | d :: r2 =>
              if (b <? 240)%N
              then ((b - 224) * 4096 + (c - 128) * 64 + (d - 128))%N :: utf8_decode r2
              else match r2 with
              | [] => []
              | e :: r3 =>
                  ((b - 240) * 262144 + (c - 128) * 4096 + (d - 128) * 64 + (e - 128))%N
                    :: utf8_decode r3
              end
          end
      end
  end.

Definition lit (s : string) : str :=
  utf8_decode (map N_of_ascii (list_ascii_of_string s)).

Fixpoint str_eqb (a b : str) : bool :=
  match a, b with
  | [], [] => true
  | x :: a', y :: b' => (x =? y)%N && str_eqb a' b'
  | _, _ => false
  end.

(** [s.startswith(p)] *)
Fixpoint startswith (p s : str) : bool :=
  match p, s with
  | [], _ => true
  | x :: p', y :: s' => (x =? y)%N && startswith p' s'
  | _ :: _, [] => false
  end.

(** [p in s] for two strings: [p] occurs in [s] as a contiguous run. *)
Fixpoint contains (p s : str) : bool :=
  startswith p s ||
  match s with
  | [] => false
  | _ :: s' => contains p s'
  end.

(** [s.replace(c, '')] for a one-character [c]. *)
Definition remove_char (c : char) (s : str) : str :=
  filter (fun x => negb (x =? c)%N) s.

(** [sep.join(parts)] *)
Fixpoint join (sep : str) (parts : list str) : str :=
  match parts with
  | [] => []
  | [p] => p
  | p :: rest => p ++ sep ++ join sep rest
  end.

(** [v in [a, b, ...]] for a string [v] and a list of strings. *)
Definition str_in (v : str) (l : list str) : bool := existsb (str_eqb v) l.

Fixpoint lstrip (sp : char -> bool) (s : str) : str :=
  match s with
  | [] => []
  | c :: s' => if sp c then lstrip sp s' else s
  end.

Definition strip_with (sp : char -> bool) (s : str) : str :=
  rev (lstrip sp (rev (lstrip sp s))).

(** Decimal digits of an integer, as [str(int)] prints them. *)
Definition str_of_Z (z : Z) : str :=
  map N_of_ascii (list_ascii_of_string (NilZero.string_of_int (Z.to_int z))).

(** ** Floats *)

(** Python's [float] is IEEE 754 binary64. *)
Definition float := spec_float.
Definition prec : Z := 53.
Definition emax : Z := 1024.

(** Conversion of an integer, rounding to nearest-even. *)
Definition float_of_Z (z : Z) : float := binary_normalize prec emax z 0 false.
Definition fdiv : float -> float -> float := SFdiv prec emax.
Definition fmul : float -> float -> float := SFmul prec emax.
Definition fadd : float -> float -> float := SFadd prec emax.

Definition is_zero (f : float) : bool :=
  match f with S754_zero _ => true | _ => false end.

Definition is_inf (f : float) : bool :=
  match f with S754_infinity _ => true | _ => false end.

(** Integer part of a finite float, rounding toward zero. *)
Definition trunc_finite (s : bool) (m : positive) (e : Z) : Z :=
  cond_Zopp s (match e with
               | Z0 => Zpos m
               | Zpos p => Z.shiftl (Zpos m) (Zpos p)
               | Zneg p => Z.shiftr (Zpos m) (Zpos p)
               end).

(** ** Exceptions and results *)

Inductive exn :=
| KeyError | ValueError | TypeError | OverflowError | ZeroDivisionError
| IndexError | OSError | DecompressionBombError.

Inductive result (A : Type) :=
| Ok (a : A)
| Raise (e : exn).
Arguments Ok {A} a.
Arguments Raise {A} e.

Definition rbind {A B} (r : result A) (k : A -> result B) : result B :=
  match r with
  | Ok a => k a
  | Raise e => Raise e
  end.

Declare Scope result_scope.
Delimit Scope result_scope with result.
Notation "x <- r ;; k" := (rbind r (fun x => k))
  (at level 61, r at next level, right associativity) : result_scope.
Local Open Scope result_scope.

(** ** Values *)

(** Numbers, scalars (what a spreadsheet cell, a column label or a JSON
    leaf can hold) and JSON documents as [json.load] returns them. *)
Inductive num :=
| Int (z : Z)
| Float (f : float).

Inductive scalar :=
| PyNone
| Bool (b : bool)
| Num (n : num)
| Str (s : str).

Inductive json :=
| Atom (a : scalar)
| Array (l : list json)
| Object (d : list (str * json)).

(** ** The Python runtime

    Library functions whose behaviour is fixed by tables outside the
    program (the Unicode character database, CPython's number parser and
    printer, pandas' header naming) are fields of a class; every theorem
    below holds for any such tables. *)
Class Runtime := {
  (** characters removed by [str.strip()] *)
  is_space : char -> bool;
  (** characters accepted by [str.isdigit()] *)
  is_digit : char -> bool;
  (** [str.lower()] *)
  lower : str -> str;
  (** [float(s)] on text; [None] stands for [ValueError] *)
  float_of_str : str -> option float;
  (** [int(s)] on text; [None] stands for [ValueError] *)
  int_of_str : str -> option Z;
  (** [repr] of a finite nonzero float *)
  repr_finite : bool -> positive -> Z -> str;
  (** the column labels pandas derives from the cells of a header row *)
  header_labels : list scalar -> list scalar
}.

Section Builtins.
Context {RT : Runtime}.

Definition strip (s : str) : str := strip_with is_space s.

(** [s.isdigit()]: non-empty and every character is a digit. *)
Definition isdigit (s : str) : bool :=
  match s with
  | [] => false
  | _ => forallb is_digit s
  end.

Definition str_of_float (f : float) : str :=
  match f with
  | S754_nan => lit "nan"
  | S754_infinity false => lit "inf"
  | S754_infinity true => lit "-inf"
  | S754_zero false => lit "0.0"
  | S754_zero true => lit "-0.0"
  | S754_finite s m e => repr_finite s m e
  end.

(** [str(v)] *)
Definition py_str (v : scalar) : str :=
  match v with
  | PyNone => lit "None"
  | Bool true => lit "True"
  | Bool false => lit "False"
  | Num (Int z) => str_of_Z z
  | Num (Float f) => str_of_float f
  | Str s => s
  end.

(** [int(v)] *)
Definition py_int (v : scalar) : result Z :=
  match v with
  | PyNone => Raise TypeError
  | Bool b => Ok (Z.b2z b)
  | Num (Int z) => Ok z
  | Num (Float S754_nan) => Raise ValueError
  | Num (Float (S754_infinity _)) => Raise OverflowError
  | Num (Float (S754_zero _)) => Ok 0
  | Num (Float (S754_finite s m e)) => Ok (trunc_finite s m e)
  | Str s => match int_of_str s with
             | Some z => Ok z
             | None => Raise ValueError
             end
  end.

(** [float(v)]; an integer beyond the float range raises [OverflowError]. *)
Definition py_float (v : scalar) : result float :=
  match v with
  | PyNone => Raise TypeError
  | Bool b => Ok (float_of_Z (Z.b2z b))
  | Num (Int z) =>
      let f := float_of_Z z in
      if is_inf f then Raise OverflowError else Ok f
  | Num (Float f) => Ok f
  | Str s => match float_of_str s with
             | Some f => Ok f
             | None => Raise ValueError
             end
  end.

(** [pd.isna(v)] *)
Definition isna (v : scalar) : bool :=
  match v with
  | PyNone => true
  | Num (Float S754_nan) => true
  | _ => false
  end.

End Builtins.

(** [z / f] for an integer and a float. *)
Definition int_truediv_float (z : Z) (f : float) : result float :=
  let a := float_of_Z z in
  if is_inf a then Raise OverflowError
  else if is_zero f then Raise ZeroDivisionError
  else Ok (fdiv a f).

(** [int(f)] for a float. *)
Definition int_of_float (f : float) : result Z :=
  match f with
  | S754_nan => Raise ValueError
  | S754_infinity _ => Raise OverflowError
  | S754_zero _ => Ok 0
  | S754_finite s m e => Ok (trunc_finite s m e)
  end.

(** Exact comparison of an integer with the finite float
    [(-1) ^ s * m * 2 ^ e]. *)
Definition Z_compare_finite (z : Z) (s : bool) (m : positive) (e : Z) : comparison :=
  match e with
  | Z0 => Z.compare z (cond_Zopp s (Zpos m))
  | Zpos p => Z.compare z (cond_Zopp s (Z.shiftl (Zpos m) (Zpos p)))
  | Zneg p => Z.compare (Z.shiftl z (Zpos p)) (cond_Zopp s (Zpos m))
  end.

Definition Z_compare_float (z : Z) (f : float) : option comparison :=
  match f with
  | S754_nan => None
  | S754_infinity false => Some Lt
  | S754_infinity true => Some Gt
  | S754_zero _ => Some (Z.compare z 0)
  | S754_finite s m e => Some (Z_compare_finite z s m e)
  end.

(** Exact comparison of two numbers; [None] when one of them is NaN, with
    which every comparison is false. *)
Definition num_compare (a b : num) : option comparison :=
  match a, b with
  | Int x, Int y => Some (Z.compare x y)
  | Int x, Float g => Z_compare_float x g
  | Float f, Int y => option_map CompOpp (Z_compare_float y f)
  | Float f, Float g => SFcompare f g
  end.

Definition num_gt (a b : num) : bool :=
  match num_compare a b with
  | Some Gt => true
  | _ => false
  end.

Definition num_lt (a b : num) : bool :=
  match num_compare a b with
  | Some Lt => true
  | _ => false
  end.

(** The number a JSON value stands for in arithmetic and comparisons:
    [bool] is a subtype of [int]; anything else has none ([TypeError]). *)
Definition as_num (v : json) : option num :=
  match v with
  | Atom (Num n) => Some n
  | Atom (Bool b) => Some (Int (Z.b2z b))
  | _ => None
  end.

(** [n + 1] *)
Definition num_succ (n : num) : num :=
  match n with
  | Int z => Int (z + 1)
  | Float f => Float (fadd f (float_of_Z 1))
  end.

(** [n - 1] *)
Definition num_pred (n : num) : num :=
  match n with
  | Int z => Int (z - 1)
  | Float f => Float (SFsub prec emax f (float_of_Z 1))
  end.

(** ** Qt geometry

    [QPoint] and [QRect] hold C [int]s.  A [QRect] stores its top-left and
    bottom-right corners; [QRect(x, y, w, h)] stores [x + w - 1] and
    [y + h - 1] as the bottom-right corner, and [right()], [bottom()]
    return the stored corner. *)
Definition INT_MIN : Z := - 2 ^ 31.
Definition INT_MAX : Z := 2 ^ 31 - 1.

Definition in_int (z : Z) : bool := (INT_MIN <=? z) && (z <=? INT_MAX).

(** Two's-complement wrap-around of C [int] arithmetic. *)
Definition wrap (z : Z) : Z := (z + 2 ^ 31) mod 2 ^ 32 - 2 ^ 31.

(** A Python integer passed where Qt expects an [int]. *)
Definition c_int (z : Z) : result Z :=
  if in_int z then Ok z else Raise OverflowError.

Record QPoint := { px : Z; py : Z }.

Record QRect := { rx1 : Z; ry1 : Z; rx2 : Z; ry2 : Z }.

(** [QRect(topLeft, bottomRight)] *)
Definition QRect_of_points (p q : QPoint) : QRect :=
  {| rx1 := px p; ry1 := py p; rx2 := px q; ry2 := py q |}.

(** [QRect(x, y, w, h)] on C [int]s *)
Definition QRect_xywh (x y w h : Z) : QRect :=
  {| rx1 := x; ry1 := y; rx2 := wrap (x + w - 1); ry2 := wrap (y + h - 1) |}.

(** [QRect(x, y, w, h)] called from Python *)
Definition QRect_new (x y w h : Z) : result QRect :=
  x <- c_int x ;; y <- c_int y ;; w <- c_int w ;; h <- c_int h ;;
  Ok (QRect_xywh x y w h).

Definition QRect_x (r : QRect) : Z := rx1 r.
Definition QRect_y (r : QRect) : Z := ry1 r.
Definition QRect_right (r : QRect) : Z := rx2 r.
Definition QRect_bottom (r : QRect) : Z := ry2 r.
Definition QRect_width (r : QRect) : Z := wrap (rx2 r - rx1 r + 1).
Definition QRect_height (r : QRect) : Z := wrap (ry2 r - ry1 r + 1).

(** [normalized()]: corners swapped where the width or height is negative. *)
Definition QRect_normalized (r : QRect) : QRect :=
  let '(a1, a2) := if rx2 r <? wrap (rx1 r - 1) then (rx2 r, rx1 r) else (rx1 r, rx2 r) in
  let '(b1, b2) := if ry2 r <? wrap (ry1 r - 1) then (ry2 r, ry1 r) else (ry1 r, ry2 r) in
  {| rx1 := a1; ry1 := b1; rx2 := a2; ry2 := b2 |}.

(** ** ImageCropWidget: the region store *)

Record ImageCropWidget := {
  scale_factor : float;
  start_point : option QPoint;
  end_point : option QPoint;
  (** [[(rect, question_number), ...]] *)
  rectangles : list (QRect * json);
  current_question_number : num;
  is_drawing : bool
}.

Definition set_points (w : ImageCropWidget) (s e : option QPoint) (d : bool) :=
  {| scale_factor := scale_factor w; start_point := s; end_point := e;
     rectangles := rectangles w;
     current_question_number := current_question_number w; is_drawing := d |}.

Definition set_store (w : ImageCropWidget) (rs : list (QRect * json)) (n : num) :=
  {| scale_factor := scale_factor w; start_point := start_point w;
     end_point := end_point w; rectangles := rs;
     current_question_number := n; is_drawing := is_drawing w |}.

Definition set_rectangles (w : ImageCropWidget) (rs : list (QRect * json)) :=
  set_store w rs (current_question_number w).

(** State of a freshly constructed widget showing an image at scale [sf]. *)
Definition new_widget (sf : float) : ImageCropWidget :=
  {| scale_factor := sf; start_point := None; end_point := None;
     rectangles := []; current_question_number := Int 1; is_drawing := false |}.

(** [display_pixmap.width() / original_pixmap.width()] *)
Definition scale_of_widths (display original : Z) : float :=
  fdiv (float_of_Z display) (float_of_Z original).

Inductive button := LeftButton | OtherButton.

Definition is_left (b : button) : bool :=
  match b with LeftButton => true | OtherButton => false end.

Definition mousePressEvent (w : ImageCropWidget) (b : button) (pos : QPoint) :=
  if is_left b then set_points w (Some pos) (end_point w) true else w.

Definition mouseMoveEvent (w : ImageCropWidget) (pos : QPoint) :=
  if is_drawing w then set_points w (start_point w) (Some pos) (is_drawing w) else w.

(** The admission test of a drawn rectangle. *)
Definition admissible (rect : QRect) : bool :=
  (10 <? QRect_width rect) && (10 <? QRect_height rect).

Definition mouseReleaseEvent (w : ImageCropWidget) (b : button) (pos : QPoint) :=
  if is_left b && is_drawing w then
    let w1 := set_points w (start_point w) (Some pos) false in
    match start_point w1 with
    | None => w1
    | Some start =>
        let rect := QRect_normalized (QRect_of_points start pos) in
        let w2 :=
          if admissible rect then
            set_store w1
              (rectangles w1 ++ [(rect, Atom (Num (current_question_number w1)))])
              (num_succ (current_question_number w1))
          else w1 in
        set_points w2 None None (is_drawing w2)
    end
  else w.

(** [list.pop()] of a non-empty list. *)
Definition pop {A} (l : list A) : list A := removelast l.

Definition clear_last (w : ImageCropWidget) :=
  match rectangles w with
  | [] => w
  | _ :: _ => set_store w (pop (rectangles w)) (num_pred (current_question_number w))
  end.

Definition clear_all (w : ImageCropWidget) := set_store w [] (Int 1).

(** *** Persistence *)

Definition REC_QNUM : str := Eval vm_compute in lit "question_number".
Definition REC_X : str := Eval vm_compute in lit "x".
Definition REC_Y : str := Eval vm_compute in lit "y".
Definition REC_WIDTH : str := Eval vm_compute in lit "width".
Definition REC_HEIGHT : str := Eval vm_compute in lit "height".

Definition region_record (entry : QRect * json) : json :=
  let '(rect, qnum) := entry in
  Object [ (REC_QNUM, qnum);
           (REC_X, Atom (Num (Int (QRect_x rect))));
           (REC_Y, Atom (Num (Int (QRect_y rect))));
           (REC_WIDTH, Atom (Num (Int (QRect_width rect))));
           (REC_HEIGHT, Atom (Num (Int (QRect_height rect)))) ].

(** The document [save_regions_config] writes.  [json.dump] followed by
    [json.load] returns an equal value, so the file is modelled by the
    document itself. *)
Definition save_regions_config (w : ImageCropWidget) : json :=
  Array (map region_record (rectangles w)).

(** Statements that may raise after having changed the widget: the state
    reached so far is kept when an exception propagates. *)
Definition M (A : Type) : Type := ImageCropWidget -> ImageCropWidget * result A.

Definition ret {A} (a : A) : M A := fun w => (w, Ok a).

Definition bind {A B} (c : M A) (k : A -> M B) : M B :=
  fun w => match c w with
           | (w', Ok a) => k a w'
           | (w', Raise e) => (w', Raise e)
           end.

Definition lift {A} (r : result A) : M A := fun w => (w, r).

Definition modify (f : ImageCropWidget -> ImageCropWidget) : M unit :=
  fun w => (f w, Ok tt).

Declare Scope widget_scope.
Delimit Scope widget_scope with widget.
Notation "x <~ c ;; k" := (bind c (fun x => k))
  (at level 61, c at next level, right associativity) : widget_scope.
Notation "c ;;; k" := (bind c (fun _ => k))
  (at level 61, right associativity) : widget_scope.

Fixpoint dict_get (k : str) (d : list (str * json)) : option json :=
  match d with
  | [] => None
  | (k', v) :: d' => if str_eqb k k' then Some v else dict_get k d'
  end.

(** [item[k]] for a string key [k] *)
Definition getitem (item : json) (k : str) : result json :=
  match item with
  | Object d => match dict_get k d with
                | Some v => Ok v
                | None => Raise KeyError
                end
  | _ => Raise TypeError
  end.

(** The items [for item in config] visits. *)
Definition iter_items (config : json) : result (list json) :=
  match config with
  | Array l => Ok l
  | Object d => Ok (map (fun kv => Atom (Str (fst kv))) d)
  | Atom (Str s) => Ok (map (fun c => Atom (Str [c])) s)
  | Atom _ => Raise TypeError
  end.

(** [max(a, v)] with a number [a]: [v] if [v > a], else [a]. *)
Definition py_max (a : num) (v : json) : result num :=
  match as_num v with
  | Some n => Ok (if num_gt n a then n else a)
  | None => Raise TypeError
  end.

Section Persistence.
Context {RT : Runtime}.

(** [int(item[k])] *)
Definition int_field (item : json) (k : str) : result Z :=
  v <- getitem item k ;;
  match v with
  | Atom a => py_int a
  | _ => Raise TypeError
  end.

(** The body of the loop of [load_regions_config], with the local
    [max_qnum] as accumulator. *)
Fixpoint load_loop (items : list json) (max_qnum : num) : M num :=
  match items with
  | [] => ret max_qnum
  | item :: rest =>
      (rect <~ lift (x <- int_field item REC_X ;;
                     y <- int_field item REC_Y ;;
                     w <- int_field item REC_WIDTH ;;
                     h <- int_field item REC_HEIGHT ;;
                     QRect_new x y w h) ;;
       qnum <~ lift (getitem item REC_QNUM) ;;
       modify (fun w => set_rectangles w (rectangles w ++ [(rect, qnum)])) ;;;
       m <~ lift (py_max max_qnum qnum) ;;
       load_loop rest m)%widget
  end.

Definition load_try (file : result json) : M bool :=
  (config <~ lift file ;;
   modify (fun w => set_rectangles w []) ;;;
   items <~ lift (iter_items config) ;;
   max_qnum <~ load_loop items (Int 0) ;;
   modify (fun w => set_store w (rectangles w) (num_succ max_qnum)) ;;;
   ret true)%widget.

(** [load_regions_config]; [file] is what opening and parsing the file
    gives.  Any exception is caught and reported as [False]. *)
Definition load_regions_config (w : ImageCropWidget) (file : result json)
  : ImageCropWidget * bool :=
  match load_try file w with
  | (w', Ok b) => (w', b)
  | (w', Raise _) => (w', false)
  end.

End Persistence.

(** *** Cropping *)

(** [a < b] between two sort keys.  Numbers compare exactly; a key that is
    not a number raises [TypeError] (the store never holds two of them:
    loading stops at the first one). *)
Definition key_lt (a b : json) : result bool :=
  match as_num a, as_num b with
  | Some x, Some y => Ok (num_lt x y)
  | _, _ => Raise TypeError
  end.

Fixpoint insert_by_key (x : QRect * json) (l : list (QRect * json))
  : result (list (QRect * json)) :=
  match l with
  | [] => Ok [x]
  | y :: l' =>
      b <- key_lt (snd y) (snd x) ;;
      if b then (r <- insert_by_key x l' ;; Ok (y :: r))
      else Ok (x :: y :: l')
  end.

(** [sorted(l, key=lambda x: x[1])]: stable, ascending.  For keys that [<]
    orders totally this is the list [sorted] returns. *)
Fixpoint sorted_by_qnum (l : list (QRect * json)) : result (list (QRect * json)) :=
  match l with
  | [] => Ok []
  | x :: l' => s <- sorted_by_qnum l' ;; insert_by_key x s
  end.

(** [int(c / scale_factor)] for a display coordinate [c] *)
Definition to_original (sf : float) (c : Z) : result Z :=
  q <- int_truediv_float c sf ;; int_of_float q.

(** The box [(x1, y1, x2, y2)] handed to [original_image.crop]. *)
Definition box : Type := Z * Z * Z * Z.

Definition crop_box (sf : float) (rect : QRect) : result box :=
  x1 <- to_original sf (QRect_x rect) ;;
  y1 <- to_original sf (QRect_y rect) ;;
  x2 <- to_original sf (QRect_right rect) ;;
  y2 <- to_original sf (QRect_bottom rect) ;;
  Ok (x1, y1, x2, y2).

(** [PIL.Image.MAX_IMAGE_PIXELS] *)
Definition MAX_IMAGE_PIXELS : Z := 1024 * 1024 * 1024 / 4 / 3.

(** [original_image.crop(box)] for a box of integers, the image data being
    readable and memory sufficient.  Pillow refuses a box whose right edge
    is left of its left edge or whose lower edge is above its upper edge
    ([ValueError]), then a box of more than [2 * MAX_IMAGE_PIXELS] pixels
    ([DecompressionBombError]), then coordinates that do not fit a C [int]
    ([OverflowError]).  The image it returns is identified with the box it
    is cut from. *)
Definition Image_crop (b : box) : result box :=
  let '(x0, y0, x1, y1) := b in
  if x1 <? x0 then Raise ValueError
  else if y1 <? y0 then Raise ValueError
  else
    let pixels := Z.max 1 (Z.abs (x1 - x0)) * Z.max 1 (Z.abs (y1 - y0)) in
    if 2 * MAX_IMAGE_PIXELS <? pixels then Raise DecompressionBombError
    else if in_int x0 && in_int y0 && in_int x1 && in_int y1 then Ok b
    else Raise OverflowError.

(** The loop of [get_cropped_regions] over the sorted regions. *)
Fixpoint crop_all (sf : float) (l : list (QRect * json)) : result (list (json * box)) :=
  match l with
  | [] => Ok []
  | (rect, qnum) :: l' =>
      b <- crop_box sf rect ;;
      cropped <- Image_crop b ;;
      rest <- crop_all sf l' ;;
      Ok ((qnum, cropped) :: rest)
  end.

(** [get_cropped_regions]: each cropped image is identified with the box
    it is cut from the original image. *)
Definition get_cropped_regions (w : ImageCropWidget) : result (list (json * box)) :=
  sorted_rects <- sorted_by_qnum (rectangles w) ;;
  crop_all (scale_factor w) sorted_rects.

(** ** Tables *)

(** A sheet as [pd.read_excel(filename, header=None)] returns it: rows of
    cells, a missing cell being NaN. *)
Definition grid := list (list scalar).

(** A [DataFrame]: column labels and data rows.  A cell is modelled by
    the Python value it converts to under [str], [float] and [pd.isna]
    (pandas' widening of a column's integers to floats changes none of the
    tests made on it); labels are pairwise distinct, as pandas' header
    parsing makes them. *)
Record DataFrame := {
  columns : list scalar;
  rows : list (list scalar)
}.

Definition NaN : scalar := Num (Float S754_nan).

Definition NAME_MARKER : str := Eval vm_compute in lit "姓名".
Definition STUDENT_MARKER : str := Eval vm_compute in lit "学生".
Definition SCORE_LABEL : str := Eval vm_compute in lit "得分".
Definition FULL_SCORE : str := Eval vm_compute in lit "满分".
Definition QUESTION : str := Eval vm_compute in lit "题".
Definition SUBJECTIVE : str := Eval vm_compute in lit "主".
Definition SUBJECTIVE_DASH : str := Eval vm_compute in lit "主-".
Definition OBJECTIVE : str := Eval vm_compute in lit "客".
Definition OBJECTIVE_DASH : str := Eval vm_compute in lit "客-".
Definition NAME_LOWER : str := Eval vm_compute in lit "name".
Definition NAME_CAPITAL : str := Eval vm_compute in lit "Name".
Definition DASH : str := Eval vm_compute in lit "-".
Definition NAN_LOWER : str := Eval vm_compute in lit "nan".
Definition NAN_MIXED : str := Eval vm_compute in lit "NaN".
Definition SPACE : str := Eval vm_compute in lit " ".

(** [range(n)] *)
Definition range (n : nat) : list nat := seq 0 n.

Section Loader.
Context {RT : Runtime}.

Definition all_missing (row : list scalar) : bool := forallb isna row.

(** [df.dropna(how='all')]: rows whose cells are all missing are removed. *)
Definition dropna_all (df : DataFrame) : DataFrame :=
  {| columns := columns df;
     rows := filter (fun row => negb (all_missing row)) (rows df) |}.

(** [df.iloc[i].astype(str).tolist()] *)
Definition row_text (row : list scalar) : list str := map py_str row.

(** [any('姓名' in str(val) for val in row_values)] *)
Definition has_name_marker (row : list scalar) : bool :=
  existsb (fun val => contains NAME_MARKER val) (row_text row).

(** The header search of [load_excel]: the loop over
    [range(min(5, len(df_raw)))] with its [break]. *)
Fixpoint scan_header (df_raw : grid) (indices : list nat) : option nat :=
  match indices with
  | [] => None
  | i :: rest =>
      if has_name_marker (nth i df_raw []) then Some i
      else scan_header df_raw rest
  end.

Definition find_header_row (df_raw : grid) : option nat :=
  scan_header df_raw (range (Nat.min 5 (List.length df_raw))).

(** [pd.read_excel(filename, header=h)] of the sheet [g]: row [h] names the
    columns, the rows below it are the data. *)
Definition read_excel (g : grid) (h : nat) : DataFrame :=
  {| columns := header_labels (nth h g []);
     rows := skipn (S h) g |}.

(** ['得分' in ' '.join(first_data_row)] *)
Definition is_score_label_row (row : list scalar) : bool :=
  contains SCORE_LABEL (join SPACE (row_text row)).

(** [self.df.iloc[1:]] *)
Definition drop_first_row (df : DataFrame) : DataFrame :=
  {| columns := columns df; rows := tl (rows df) |}.

(** The table [load_excel] stores in [self.df] for the sheet [g]. *)
Definition load_excel (g : grid) : DataFrame :=
  let df :=
    match find_header_row g with
    | Some header_row =>
        let df := read_excel g header_row in
        match rows df with
        | first_data_row :: _ =>
            if is_score_label_row first_data_row then drop_first_row df else df
        | [] => df
        end
    | None => read_excel g 0
    end in
  dropna_all df.

End Loader.

(** ** analyze_questions *)

Record QuestionStats := {
  wrong_students : list str;
  correct_count : Z;
  wrong_count : Z;
  correct_rate : num;
  column_name : scalar
}.

(** The counters of the row loop. *)
Record tally := {
  t_wrong_students : list str;
  t_correct_count : Z;
  t_wrong_count : Z;
  t_total_students : Z
}.

Definition empty_tally : tally :=
  {| t_wrong_students := []; t_correct_count := 0; t_wrong_count := 0;
     t_total_students := 0 |}.

(** The three lists filled by the column loop. *)
Record question_columns := {
  all_question_columns : list scalar;
  subjective_columns : list scalar;
  objective_columns : list scalar
}.

Definition no_columns : question_columns :=
  {| all_question_columns := []; subjective_columns := []; objective_columns := [] |}.

Definition float_eqb (f g : float) : bool :=
  match f, g with
  | S754_zero a, S754_zero b => Bool.eqb a b
  | S754_infinity a, S754_infinity b => Bool.eqb a b
  | S754_nan, S754_nan => true
  | S754_finite a m e, S754_finite b n k => Bool.eqb a b && Pos.eqb m n && Z.eqb e k
  | _, _ => false
  end.

Definition scalar_eqb (a b : scalar) : bool :=
  match a, b with
  | PyNone, PyNone => true
  | Bool x, Bool y => Bool.eqb x y
  | Num (Int x), Num (Int y) => Z.eqb x y
  | Num (Float f), Num (Float g) => float_eqb f g
  | Str s, Str t => str_eqb s t
  | _, _ => false
  end.

(** Position of a label among the columns. *)
Fixpoint column_index (cols : list scalar) (col : scalar) : option nat :=
  match cols with
  | [] => None
  | c :: cols' =>
      if scalar_eqb c col then Some O
      else option_map S (column_index cols' col)
  end.

(** [l[i]] *)
Definition index {A} (l : list A) (i : nat) : result A :=
  match nth_error l i with
  | Some a => Ok a
  | None => Raise IndexError
  end.

(** [enumerate(l, start)] *)
Fixpoint enumerate {A} (l : list A) (start : Z) : list (Z * A) :=
  match l with
  | [] => []
  | a :: l' => (start, a) :: enumerate l' (start + 1)
  end.

(** [s == v] for a string [s] and any label [v] *)
Definition str_eq_scalar (s : str) (v : scalar) : bool :=
  match v with
  | Str t => str_eqb s t
  | _ => false
  end.

Section Analysis.
Context {RT : Runtime}.

(** [row[col]] for a row of the table [df] *)
Definition getcell (df : DataFrame) (row : list scalar) (col : scalar) : result scalar :=
  match column_index (columns df) col with
  | Some i => Ok (nth i row NaN)
  | None => Raise KeyError
  end.

Definition is_name_header (col : scalar) : bool :=
  let col_str := py_str col in
  contains NAME_MARKER col_str
  || contains NAME_LOWER (lower col_str)
  || contains STUDENT_MARKER col_str.

Definition find_name_column (cols : list scalar) : result scalar :=
  match find is_name_header cols with
  | Some col => Ok col
  | None =>
      if (2 <? List.length cols)%nat then index cols 2
      else if (1 <? List.length cols)%nat then index cols 1
      else index cols 0
  end.

Definition is_question_header (name_column col : scalar) : bool :=
  let col_str := py_str col in
  contains FULL_SCORE col_str
  || contains QUESTION col_str
  || (isdigit (remove_char 45%N (remove_char 46%N col_str))
      && negb (str_eq_scalar col_str name_column)).

Definition is_subjective_header (col_str : str) : bool :=
  contains SUBJECTIVE_DASH col_str || contains SUBJECTIVE (firstn 2 col_str).

Definition is_objective_header (col_str : str) : bool :=
  contains OBJECTIVE_DASH col_str || contains OBJECTIVE (firstn 2 col_str).

(** One round of the loop over [self.df.columns] that fills the lists. *)
Definition classify_column (name_column : scalar) (q : question_columns) (col : scalar)
  : question_columns :=
  let col_str := py_str col in
  if is_question_header name_column col then
    let all := all_question_columns q ++ [col] in
    if is_subjective_header col_str then
      {| all_question_columns := all;
         subjective_columns := subjective_columns q ++ [col];
         objective_columns := objective_columns q |}
    else if is_objective_header col_str then
      {| all_question_columns := all;
         subjective_columns := subjective_columns q;
         objective_columns := objective_columns q ++ [col] |}
    else
      {| all_question_columns := all;
         subjective_columns := subjective_columns q ++ [col];
         objective_columns := objective_columns q |}
  else q.

Definition classify_columns (name_column : scalar) (cols : list scalar) : question_columns :=
  fold_left (classify_column name_column) cols no_columns.

(** The columns chosen for scoring. *)
Definition select_score_columns (q : question_columns) : list scalar :=
  if (0 <? List.length (subjective_columns q))%nat then subjective_columns q
  else all_question_columns q.

Definition HEADER_ECHOES : list str :=
  [NAME_MARKER; STUDENT_MARKER; NAME_LOWER; NAME_CAPITAL].

Definition UNANSWERED : list str := [DASH; []; NAN_LOWER; NAN_MIXED].

(** One round of the loop over the rows, for the column [col]. *)
Definition score_row (df : DataFrame) (name_column col : scalar) (t : tally)
    (row : list scalar) : result tally :=
  name <- getcell df row name_column ;;
  if isna name || str_eqb (strip (py_str name)) [] then Ok t
  else
    let student_name := strip (py_str name) in
    if str_in student_name HEADER_ECHOES then Ok t
    else
      score <- getcell df row col ;;
      let score_str := strip (py_str score) in
      if str_in score_str UNANSWERED then Ok t
      else
        match py_float score with
        | Ok score_val =>
            if is_zero score_val then
              Ok {| t_wrong_students := t_wrong_students t ++ [student_name];
                    t_correct_count := t_correct_count t;
                    t_wrong_count := t_wrong_count t + 1;
                    t_total_students := t_total_students t + 1 |}
            else
              Ok {| t_wrong_students := t_wrong_students t;
                    t_correct_count := t_correct_count t + 1;
                    t_wrong_count := t_wrong_count t;
                    t_total_students := t_total_students t + 1 |}
        | Raise ValueError => Ok t
        | Raise TypeError => Ok t
        | Raise e => Raise e
        end.

Fixpoint score_rows (df : DataFrame) (name_column col : scalar) (t : tally)
    (rs : list (list scalar)) : result tally :=
  match rs with
  | [] => Ok t
  | row :: rs' =>
      t' <- score_row df name_column col t row ;;
      score_rows df name_column col t' rs'
  end.

(** [(correct_count / total * 100) if total > 0 else 0] *)
Definition rate (correct total : Z) : num :=
  if 0 <? total then
    Float (fmul (fdiv (float_of_Z correct) (float_of_Z total)) (float_of_Z 100))
  else Int 0.

Definition score_column (df : DataFrame) (name_column col : scalar) : result QuestionStats :=
  t <- score_rows df name_column col empty_tally (rows df) ;;
  let total := t_correct_count t + t_wrong_count t in
  Ok {| wrong_students := t_wrong_students t;
        correct_count := t_correct_count t;
        wrong_count := t_wrong_count t;
        correct_rate := rate (t_correct_count t) total;
        column_name := col |}.

(** The loop [for idx, col in enumerate(score_columns, 1)]; [stats] is the
    dictionary built so far, in insertion order. *)
Fixpoint score_columns_loop (df : DataFrame) (name_column : scalar)
    (cols : list (Z * scalar)) (stats : list (Z * QuestionStats))
  : result (list (Z * QuestionStats)) :=
  match cols with
  | [] => Ok stats
  | (idx, col) :: cols' =>
      s <- score_column df name_column col ;;
      score_columns_loop df name_column cols' (stats ++ [(idx, s)])
  end.

Definition analyze_questions (df : DataFrame) : result (list (Z * QuestionStats)) :=
  name_column <- find_name_column (columns df) ;;
  let q := classify_columns name_column (columns df) in
  let score_columns := select_score_columns q in
  score_columns_loop df name_column (enumerate score_columns 1) [].

End Analysis.

(** ** A concrete runtime

    CPython's behaviour on the inputs used in the examples below: the full
    whitespace table of [str.strip], ASCII digits and letters, decimal
    integer and float literals (correctly rounded), [inf] and [nan].
    Digits and cased letters outside ASCII are not in its tables, and
    [repr] prints a float by its exact decimal expansion. *)
Module CPython.

Definition between (lo c hi : N) : bool := ((lo <=? c) && (c <=? hi))%N.

Definition is_space (c : char) : bool :=
  between 9 c 13 || between 28 c 32 || (c =? 133)%N || (c =? 160)%N
  || (c =? 5760)%N || between 8192 c 8202 || (c =? 8232)%N || (c =? 8233)%N
  || (c =? 8239)%N || (c =? 8287)%N || (c =? 12288)%N.

Definition is_digit (c : char) : bool := between 48 c 57.

Definition lower_char (c : char) : char :=
  if between 65 c 90 then (c + 32)%N else c.

Definition lower (s : str) : str := map lower_char s.

Definition digit_value (c : char) : Z := Z.of_N (c - 48).

(** The rest of a [digitpart] after its first digit: digits, each
    optionally preceded by one underscore.  Returns the value, the number
    of digits read and the remaining text. *)
Fixpoint digits_loop (s : str) (acc : Z) (n : Z) : Z * Z * str :=
  match s with
  | [] => (acc, n, [])
  | c :: s' =>
      if is_digit c then digits_loop s' (acc * 10 + digit_value c) (n + 1)
      else if (c =? 95)%N then
        match s' with
        | d :: s'' =>
            if is_digit d then digits_loop s'' (acc * 10 + digit_value d) (n + 1)
            else (acc, n, s)
        | [] => (acc, n, s)
        end
      else (acc, n, s)
  end.

Definition digitpart (s : str) (acc : Z) : option (Z * Z * str) :=
  match s with
  | c :: s' =>
      if is_digit c then Some (digits_loop s' (acc * 10 + digit_value c) 1)
      else None
  | [] => None
  end.

(** An optional sign: [true] for minus. *)
Definition sign (s : str) : bool * str :=
  match s with
  | c :: s' =>
      if (c =? 45)%N then (true, s')
      else if (c =? 43)%N then (false, s')
      else (false, s)
  | [] => (false, [])
  end.

Definition int_of_str (s : str) : option Z :=
  let '(neg, body) := sign (strip_with is_space s) in
  match digitpart body 0 with
  | Some (v, _, []) => Some (cond_Zopp neg v)
  | _ => None
  end.

(** The float nearest to [± m * 10 ^ e]. *)
Definition float_of_decimal (neg : bool) (m e : Z) : float :=
  match m with
  | Zpos p =>
      match e with
      | Zneg k =>
          fdiv (S754_finite neg p 0)
               (S754_finite false (Z.to_pos (10 ^ Zpos k)) 0)
      | _ => binary_normalize prec emax (cond_Zopp neg (m * 10 ^ e)) 0 false
      end
  | _ => S754_zero neg
  end.

(** [number]: [digitpart ["." [digitpart]]] or ["." digitpart]; returns
    the digits read as one integer, the count of fraction digits and the
    remaining text. *)
Definition number (s : str) : option (Z * Z * str) :=
  match digitpart s 0 with
  | Some (v, _, r) =>
      match r with
      | c :: r' =>
          if (c =? 46)%N then
            match digitpart r' v with
            | Some (v', k, r'') => Some (v', k, r'')
            | None => Some (v, 0, r')
            end
          else Some (v, 0, r)
      | [] => Some (v, 0, [])
      end
  | None =>
      match s with
      | c :: r' =>
          if (c =? 46)%N then
            match digitpart r' 0 with
            | Some (v', k, r'') => Some (v', k, r'')
            | None => None
            end
          else None
      | [] => None
      end
  end.

(** [exponent]: [("e" | "E") [sign] digitpart]; absent exponent is 0. *)
Definition exponent (s : str) : option Z :=
  match s with
  | [] => Some 0
  | c :: r =>
      if (c =? 101)%N || (c =? 69)%N then
        let '(neg, body) := sign r in
        match digitpart body 0 with
        | Some (v, _, []) => Some (cond_Zopp neg v)
        | _ => None
        end
      else None
  end.

Definition float_of_str (s : str) : option float :=
  let '(neg, body) := sign (strip_with is_space s) in
  let word := lower body in
  if str_eqb word (lit "inf") || str_eqb word (lit "infinity")
  then Some (S754_infinity neg)
  else if str_eqb word (lit "nan") then Some S754_nan
  else
    match number body with
    | Some (m, k, r) =>
        match exponent r with
        | Some e => Some (float_of_decimal neg m (e - k))
        | None => None
        end
    | None => None
    end.

(** Digits of a fraction [n / 2 ^ k] below one, [k] digits of them. *)
Fixpoint fraction_digits (fuel : nat) (n : Z) (k : Z) : str :=
  match fuel with
  | O => []
  | S fuel' =>
      if n =? 0 then []
      else
        let t := n * 10 in
        Z.to_N (48 + Z.shiftr t k) :: fraction_digits fuel' (Z.land t (Z.ones k)) k
  end.

Definition repr_finite (neg : bool) (m : positive) (e : Z) : str :=
  let sgn := if neg then [45%N] else [] in
  match e with
  | Zneg k =>
      let whole := Z.shiftr (Zpos m) (Zpos k) in
      let part := Z.land (Zpos m) (Z.ones (Zpos k)) in
      sgn ++ str_of_Z whole ++ [46%N] ++
      (if part =? 0 then [48%N] else fraction_digits (Pos.to_nat k) part (Zpos k))
  | _ => sgn ++ str_of_Z (Z.shiftl (Zpos m) e) ++ [46%N; 48%N]
  end.

(** Empty header cells are named [Unnamed: i]; other cells name their
    column themselves (repeated names are not renamed here). *)
Fixpoint header_labels_from (i : Z) (cells : list scalar) : list scalar :=
  match cells with
  | [] => []
  | c :: cells' =>
      (match c with
       | Num (Float S754_nan) => Str (lit "Unnamed: " ++ str_of_Z i)
       | _ => c
       end) :: header_labels_from (i + 1) cells'
  end.

Definition header_labels (cells : list scalar) : list scalar :=
  header_labels_from 0 cells.

End CPython.

#[export] Instance cpython : Runtime := {|
  is_space := CPython.is_space;
  is_digit := CPython.is_digit;
  lower := CPython.lower;
  float_of_str := CPython.float_of_str;
  int_of_str := CPython.int_of_str;
  repr_finite := CPython.repr_finite;
  header_labels := CPython.header_labels
|}.

(** ** Operator sessions

    The events a widget receives from the operator, and the widget states
    they lead to from a freshly constructed widget. *)
Inductive event :=
| Press (b : button) (pos : QPoint)
| Move (pos : QPoint)
| Release (b : button) (pos : QPoint)
| Undo
| ClearAll.

Definition handle (w : ImageCropWidget) (e : event) : ImageCropWidget :=
  match e with
  | Press b pos => mousePressEvent w b pos
  | Move pos => mouseMoveEvent w pos
  | Release b pos => mouseReleaseEvent w b pos
  | Undo => clear_last w
  | ClearAll => clear_all w
  end.

(** Positions delivered by Qt are C [int]s. *)
Definition point_ok (p : QPoint) : Prop :=
  in_int (px p) = true /\ in_int (py p) = true.

Definition event_ok (e : event) : Prop :=
  match e with
  | Press _ pos | Move pos | Release _ pos => point_ok pos
  | Undo | ClearAll => True
  end.

Inductive reachable (sf : float) : ImageCropWidget -> Prop :=
| reach_new : reachable sf (new_widget sf)
| reach_step w e : reachable sf w -> event_ok e -> reachable sf (handle w e).

(** A rectangle whose corners are C [int]s. *)
Definition rect_ok (r : QRect) : Prop :=
  in_int (rx1 r) = true /\ in_int (ry1 r) = true /\
  in_int (rx2 r) = true /\ in_int (ry2 r) = true.

(** The entries [(rect, k), (rect', k + 1), ...] of a store filled by
    appends alone. *)
Definition numbered (rs : list QRect) (k : Z) : list (QRect * json) :=
  map (fun e => (snd e, Atom (Num (Int (fst e))))) (enumerate rs k).

(** [max] of the question numbers of a store, as the loading loop
    accumulates it from 0. *)
Fixpoint max_qnum_from (m : num) (l : list (QRect * json)) : result num :=
  match l with
  | [] => Ok m
  | (_, qnum) :: l' => m' <- py_max m qnum ;; max_qnum_from m' l'
  end.

(** A rectangle whose width and height fit a C [int]. *)
Definition span_ok (r : QRect) : Prop :=
  in_int (rx2 r - rx1 r + 1) = true /\ in_int (ry2 r - ry1 r + 1) = true.

(** A sort key that is a number. *)
Definition numeric_key (e : QRect * json) : Prop := as_num (snd e) <> None.

(** What holds of every store an operator session reaches: the regions
    are numbered 1, 2, ... in order, the counter is one past the last
    number, every rectangle passed the admission test and has C [int]
    corners. *)
Definition session_inv (w : ImageCropWidget) : Prop :=
  exists rs,
    rectangles w = numbered rs 1 /\
    current_question_number w = Int (1 + Z.of_nat (List.length rs)) /\
    Forall rect_ok rs /\
    Forall (fun r => admissible r = true) rs /\
    (forall p, start_point w = Some p -> point_ok p).

(** The scale factor [2 ^ (- k)]: 1.0 for [k = 0], 0.5 for [k = 1]. *)
Definition pow2_scale (k : Z) : float := S754_finite false 4503599627370496 (- 52 - k).

(** A mantissa of full precision. *)
Definition full_mantissa (m : positive) : Prop := digits2_pos m = 53%positive.

(** The mantissa an integer of at most 53 bits is stored with. *)
Definition aligned (p : positive) : positive :=
  match (53 - Zpos (digits2_pos p))%Z with
  | Zpos d => Pos.iter xO p d
  | _ => p
  end.

Ltac split_inv := split; [|split; [|split; [|split]]].

(** ** Example inputs *)

Definition num_atom (z : Z) : json := Atom (Num (Int z)).

(** One record of a region file. *)
Definition record (qnum x y width height : Z) : json :=
  Object [ (REC_QNUM, num_atom qnum); (REC_X, num_atom x); (REC_Y, num_atom y);
           (REC_WIDTH, num_atom width); (REC_HEIGHT, num_atom height) ].

(** Scale factor 0.5: an image twice as wide as its display. *)
Definition half : float := scale_of_widths 1 2.

(** A widget at scale 0.5 holding the display rectangle
    [(x=100, y=100, width=50, height=50)] as question 1. *)
Definition example_widget : ImageCropWidget :=
  set_store (new_widget half) [(QRect_xywh 100 100 50 50, num_atom 1)] (Int 2).

(** A session drawing two rectangles. *)
Definition two_regions : ImageCropWidget :=
  fold_left handle
    [ Press LeftButton {| px := 10; py := 10 |};
      Release LeftButton {| px := 110; py := 60 |};
      Press LeftButton {| px := 10; py := 80 |};
      Move {| px := 50; py := 100 |};
      Release LeftButton {| px := 110; py := 140 |} ]
    (new_widget half).

(** A region file whose second record lacks [y], [width] and [height]. *)
Definition malformed_config : json :=
  Array [ record 7 100 100 50 50; Object [ (REC_QNUM, num_atom 8); (REC_X, num_atom 3) ] ].

(** In the spec's words: [floor(c / s)] for the scale factor
    [s = display / original], in exact arithmetic. *)
Definition spec_floor_scaled (display original c : Z) : Z :=
  (c * original) / display.

(** In the spec's words: the original-space bounds of the
    display rectangle [(x, y, width, height)], with
    [right = x + width] and [bottom = y + height]. *)
Definition spec_crop_box (display original x y width height : Z) : box :=
  (spec_floor_scaled display original x,
   spec_floor_scaled display original y,
   spec_floor_scaled display original (x + width),
   spec_floor_scaled display original (y + height)).

(** [int(c / s)] read as arithmetic: the binary64 quotient of [c] by [s],
    which is [(-1) ^ sign * m * 2 ^ e], rounded toward zero; none when the
    quotient is not finite. *)
Definition truncated_quotient (s : float) (c : Z) : option Z :=
  match fdiv (float_of_Z c) s with
  | S754_zero _ => Some 0
  | S754_finite sign m e =>
      Some (Z.quot (cond_Zopp sign (Zpos m) * 2 ^ Z.max 0 e) (2 ^ Z.max 0 (- e)))
  | _ => None
  end.

(** The boxes [(x1, y1, x2, y2)] that [Image.crop] accepts: right not left
    of left, bottom not above top, at most 178956970 pixels (an empty side
    counting as one pixel), C [int] coordinates. *)
Definition croppable (b : box) : Prop :=
  let '(x1, y1, x2, y2) := b in
  x1 <= x2 /\ y1 <= y2 /\
  Z.max 1 (x2 - x1) * Z.max 1 (y2 - y1) <= 178956970 /\
  - 2147483648 <= x1 /\ x2 <= 2147483647 /\
  - 2147483648 <= y1 /\ y2 <= 2147483647.

(** A widget at scale 0.5 that loaded a region file with one record of
    width 0 and height 0. *)
Definition flat_widget : ImageCropWidget :=
  fst (load_regions_config (new_widget half) (Ok (Array [record 1 100 100 0 0]))).

(** In the spec's words: the Header Resolution Result of a raw
    grid is the first row, among the first five, with a cell whose text
    contains the identity marker, or "not found". *)
Definition spec_header_resolution {RT : Runtime} (g : grid) (sel : option nat) : Prop :=
  match sel with
  | Some k =>
      (k < Nat.min 5 (List.length g))%nat /\
      has_name_marker (nth k g []) = true /\
      forall j, (j < k)%nat -> has_name_marker (nth j g []) = false
  | None =>
      forall j, (j < Nat.min 5 (List.length g))%nat ->
                has_name_marker (nth j g []) = false
  end.

(** In the spec's words: the raw data rows below the header,
    the header being the detected row or, failing that, the first row. *)
Definition spec_post_header_rows {RT : Runtime} (g : grid) : list (list scalar) :=
  match find_header_row g with
  | Some h => skipn (S h) g
  | None => skipn 1 g
  end.

(** The table read with header row [h], without its first data row when
    that row is a score-label row. *)
Definition without_score_label_row {RT : Runtime} (df : DataFrame) : DataFrame :=
  match rows df with
  | first_data_row :: _ =>
      if is_score_label_row first_data_row then drop_first_row df else df
  | [] => df
  end.

Definition text (s : string) : scalar := Str (lit s).
Definition whole (z : Z) : scalar := Num (Int z).

(** A sheet with a title line above the header and a score-label row
    below it. *)
Definition titled_sheet : grid :=
  Eval vm_compute in
  [ [text "期中考试"; NaN; NaN];
    [text "学号"; text "姓名"; text "主-1 (满分:2)"];
    [NaN; NaN; text "得分"];
    [whole 1; text "Alice"; whole 2];
    [whole 2; text "Bob"; whole 0];
    [whole 3; text "Carol"; text "-"] ].

(** The same with an empty line among the data rows. *)
Definition gapped_sheet : grid :=
  Eval vm_compute in
  [ [text "姓名"; text "主-1 (满分:2)"];
    [NaN; text "得分"];
    [NaN; NaN];
    [text "Alice"; whole 2] ].

(** A sheet without a name header, with a score-label row. *)
Definition anonymous_sheet : grid :=
  Eval vm_compute in
  [ [text "考号"; text "第1题"];
    [NaN; text "得分"];
    [whole 1; whole 2] ].

(** The table of the spec's end-to-end scenario, with a multiple-choice
    answer added. *)
Definition scenario_table : DataFrame :=
  Eval vm_compute in
  {| columns := [text "姓名"; text "主-1 (满分:2)"];
     rows := [ [text "Alice"; whole 2];
               [text "Bob"; whole 0];
               [text "Carol"; text "-"];
               [text "Dave"; text "A"] ] |}.

(** Headers of a sheet without a name column: the third column is taken
    as the identity column. *)
Definition anonymous_headers : list scalar :=
  Eval vm_compute in [text "考号"; text "班级"; text "第1题"; text "第2题"].

(** Headers whose name column also mentions the question numbers. *)
Definition shared_headers : list scalar :=
  Eval vm_compute in [text "姓名/题号"; text "1"; text "2"].

(** The three score lists in one tuple. *)
Definition lists_of (q : question_columns) :=
  (all_question_columns q, subjective_columns q, objective_columns q).

(** The cells of a table do not exceed the float range. *)
Definition cells_in_float_range {RT : Runtime} (df : DataFrame) : Prop :=
  forall row c, In row (rows df) -> In c row -> py_float c <> Raise OverflowError.

(** The row passes the two name checks of the row loop. *)
Definition named_row {RT : Runtime} (name : scalar) : Prop :=
  isna name = false /\
  str_eqb (strip (py_str name)) [] = false /\
  str_in (strip (py_str name)) HEADER_ECHOES = false.

(** The columns the loop over the headers appends to the subjective list,
    and those it appends to the objective list. *)
Definition goes_subjective {RT : Runtime} (name_column col : scalar) : bool :=
  is_question_header name_column col
  && (is_subjective_header (py_str col) || negb (is_objective_header (py_str col))).

Definition goes_objective {RT : Runtime} (name_column col : scalar) : bool :=
  is_question_header name_column col
  && negb (is_subjective_header (py_str col))
  && is_objective_header (py_str col).

(** ** More of the program: main-window state, validation, slide pairing *)

(** [a == b] between two numbers. *)
Definition num_eqb (a b : num) : bool :=
  match num_compare a b with
  | Some Eq => true
  | _ => false
  end.

(** The integer a question number is, when it is a JSON integer. *)
Definition qnum_Z (qnum : json) : option Z :=
  match qnum with
  | Atom (Num (Int z)) => Some z
  | _ => None
  end.

(** A store entry, or a cropped region, whose question number is the
    integer [z]. *)
Definition int_key {A} (e : A * json) : Prop := exists z, snd e = Atom (Num (Int z)).

(** The integer key of an entry ([0] stands in for keys that are not
    integers; it is used on integer keys only). *)
Definition key_of {A} (e : A * json) : Z :=
  match qnum_Z (snd e) with
  | Some z => z
  | None => 0
  end.

(** [s] is [l] with some elements left out, the order kept. *)
Inductive subseq {A : Type} : list A -> list A -> Prop :=
| subseq_nil : forall l, subseq [] l
| subseq_skip : forall x s l, subseq s l -> subseq s (x :: l)
| subseq_take : forall x s l, subseq s l -> subseq (x :: s) (x :: l).

(** *** MainWindow *)

(** The fields of [MainWindow] that decide whether a report can be
    generated. *)
Record MainWindow := {
  mw_excel_file : option str;
  mw_exam_image : option str;
  mw_crop_widget : option ImageCropWidget;
  mw_df : option DataFrame
}.

(** [MainWindow.__init__] *)
Definition new_window : MainWindow :=
  {| mw_excel_file := None; mw_exam_image := None;
     mw_crop_widget := None; mw_df := None |}.

(** Truth value of a file name that is [None] or a string. *)
Definition truthy (name : option str) : bool :=
  match name with
  | Some (_ :: _) => true
  | _ => false
  end.

(** [len(self.crop_widget.rectangles)], for a window that has a widget. *)
Definition region_count (mw : MainWindow) : option nat :=
  option_map (fun w => List.length (rectangles w)) (mw_crop_widget mw).

(** The entries of the list [missing] built by [generate_ppt]. *)
Inductive missing_item := MissingExcel | MissingImage | MissingRegions.

Definition missing_preconditions (mw : MainWindow) : list missing_item :=
  (match mw_df mw with None => [MissingExcel] | Some _ => [] end)
  ++ (if negb (truthy (mw_exam_image mw)) then [MissingImage] else [])
  ++ (match mw_crop_widget mw with
      | None => [MissingRegions]
      | Some w => if (List.length (rectangles w) =? 0)%nat then [MissingRegions] else []
      end).

(** The caption [check_ready] puts on the generate button. *)
Inductive caption :=
| CaptionReady          (* "✓ 生成PPT" *)
| CaptionNeedRegions    (* "生成PPT (请先框选题目)" *)
| CaptionNeedExcel      (* "生成PPT (请先选择成绩单)" *)
| CaptionNeedImage.     (* "生成PPT (请先选择试卷)" *)

Definition check_ready (mw : MainWindow) : caption :=
  match mw_crop_widget mw with
  | Some w =>
      if truthy (mw_excel_file mw) && truthy (mw_exam_image mw) then
        if (0 <? List.length (rectangles w))%nat then CaptionReady
        else CaptionNeedRegions
      else if negb (truthy (mw_excel_file mw)) then CaptionNeedExcel
      else if negb (truthy (mw_exam_image mw)) then CaptionNeedImage
      else CaptionNeedRegions
  | None =>
      if negb (truthy (mw_excel_file mw)) then CaptionNeedExcel
      else if negb (truthy (mw_exam_image mw)) then CaptionNeedImage
      else CaptionNeedRegions
  end.

(** The effect of [MainWindow.load_excel] on the window: [filename] is what
    the file dialog returns (empty when cancelled), [sheet] what reading
    the file gives.  A file that cannot be read changes nothing. *)
Definition window_load_excel {RT : Runtime} (mw : MainWindow) (filename : str)
    (sheet : result grid) : MainWindow :=
  match filename with
  | [] => mw
  | _ :: _ =>
      match sheet with
      | Ok g =>
          {| mw_excel_file := Some filename; mw_exam_image := mw_exam_image mw;
             mw_crop_widget := mw_crop_widget mw; mw_df := Some (load_excel g) |}
      | Raise _ => mw
      end
  end.

(** Window states the operator can reach: spreadsheets are loaded by
    [load_excel], which assigns [self.df] before [self.excel_file] and may
    be interrupted by an exception in between; every other handler leaves
    [self.df] and [self.excel_file] alone and may change the image and
    the widget. *)
Inductive window_reachable {RT : Runtime} : MainWindow -> Prop :=
| window_new : window_reachable new_window
| window_excel mw filename sheet :
    window_reachable mw -> window_reachable (window_load_excel mw filename sheet)
| window_interrupted mw df :
    window_reachable mw ->
    window_reachable {| mw_excel_file := mw_excel_file mw;
                        mw_exam_image := mw_exam_image mw;
                        mw_crop_widget := mw_crop_widget mw; mw_df := Some df |}
| window_other mw image widget :
    window_reachable mw ->
    window_reachable {| mw_excel_file := mw_excel_file mw; mw_exam_image := image;
                        mw_crop_widget := widget; mw_df := mw_df mw |}.

(** *** validate_data *)

(** The three lists filled by the column loop of [validate_data]. *)
Record validation_columns := {
  v_score_columns : list scalar;
  v_objective_cols : list scalar;
  v_subjective_cols : list scalar
}.

Definition no_validation_columns : validation_columns :=
  {| v_score_columns := []; v_objective_cols := []; v_subjective_cols := [] |}.

Section Validation.
Context {RT : Runtime}.

(** The search for the name column in [validate_data]. *)
Definition validate_name_column (cols : list scalar) : option scalar :=
  find (fun col => contains NAME_MARKER (py_str col)) cols.

(** One round of the column loop of [validate_data]. *)
Definition validate_column (v : validation_columns) (col : scalar) : validation_columns :=
  let col_str := py_str col in
  if contains FULL_SCORE col_str then
    let score := v_score_columns v ++ [col] in
    if contains OBJECTIVE_DASH col_str then
      {| v_score_columns := score;
         v_objective_cols := v_objective_cols v ++ [col];
         v_subjective_cols := v_subjective_cols v |}
    else if contains SUBJECTIVE_DASH col_str then
      {| v_score_columns := score;
         v_objective_cols := v_objective_cols v;
         v_subjective_cols := v_subjective_cols v ++ [col] |}
    else
      {| v_score_columns := score;
         v_objective_cols := v_objective_cols v;
         v_subjective_cols := v_subjective_cols v |}
  else v.

Definition validate_columns (cols : list scalar) : validation_columns :=
  fold_left validate_column cols no_validation_columns.

(** The row of the column [col] was counted as wrong under the name
    [name]: the name passes the name checks, the cell is answered and
    converts to a zero. *)
Definition scored_zero (df : DataFrame) (name_column col : scalar)
    (row : list scalar) (name : str) : Prop :=
  exists name_cell score score_val,
    getcell df row name_column = Ok name_cell /\
    named_row name_cell /\
    name = strip (py_str name_cell) /\
    getcell df row col = Ok score /\
    str_in (strip (py_str score)) UNANSWERED = false /\
    py_float score = Ok score_val /\
    is_zero score_val = true.

End Validation.

(** *** Statistics of a region *)

(** [question_stats[qnum]] for a key that is a number. *)
Fixpoint dict_find (n : num) (stats : list (Z * QuestionStats)) : option QuestionStats :=
  match stats with
  | [] => None
  | (k, s) :: rest => if num_eqb (Int k) n then Some s else dict_find n rest
  end.

(** The statistics [generate_ppt] finds for a region: [Some] when
    [qnum in question_stats], [None] when it is not; a list or a dictionary
    cannot be looked up ([TypeError]). *)
Definition stats_get (qnum : json) (stats : list (Z * QuestionStats))
  : result (option QuestionStats) :=
  match qnum with
  | Array _ | Object _ => Raise TypeError
  | Atom _ =>
      Ok (match as_num qnum with
          | Some n => dict_find n stats
          | None => None
          end)
  end.

(** A window reached by loading [titled_sheet] and drawing two regions. *)
Definition ready_window : MainWindow :=
  {| mw_excel_file := Some (lit "scores.xlsx");
     mw_exam_image := Some (lit "exam.png");
     mw_crop_widget := Some two_regions;
     mw_df := Some (load_excel titled_sheet) |}.

(** Pointer positions far from the limits of a C [int], as positions on
    a screen are. *)
Definition on_screen (p : QPoint) : Prop :=
  Z.abs (px p) <= 2 ^ 29 /\ Z.abs (py p) <= 2 ^ 29.

(** The drag from [p] to [q] spans at least 10 pixels in both directions. *)
Definition long_drag (p q : QPoint) : bool :=
  (10 <=? Z.abs (px q - px p)) && (10 <=? Z.abs (py q - py p)).

(** Widget states reached by operator events and by loading region files
    (whatever the files hold, and whether loading succeeds or not). *)
Inductive operated {RT : Runtime} (sf : float) : ImageCropWidget -> Prop :=
| operated_new : operated sf (new_widget sf)
| operated_event w e : operated sf w -> event_ok e -> operated sf (handle w e)
| operated_load w file :
    operated sf w -> operated sf (fst (load_regions_config w file)).

(** A widget that loaded a hand-written region file (question numbers 5
    and 2, the second rectangle below the admission size) and then had a
    region drawn. *)
Definition loaded_widget : ImageCropWidget :=
  handle
    (handle
       (fst (load_regions_config (new_widget half)
               (Ok (Array [record 5 100 100 50 50; record 2 10 10 5 5]))))
       (Press LeftButton {| px := 10; py := 10 |}))
    (Release LeftButton {| px := 110; py := 60 |}).

(** The corners of a rectangle multiplied by [2 ^ k]. *)
Definition scaled_box (k : Z) (r : QRect) : box :=
  (QRect_x r * 2 ^ k, QRect_y r * 2 ^ k, QRect_right r * 2 ^ k, QRect_bottom r * 2 ^ k).

(** What the counters of the row loop satisfy after [n] rows. *)
Definition tally_ok (t : tally) (n : Z) : Prop :=
  t_wrong_count t = Z.of_nat (List.length (t_wrong_students t)) /\
  0 <= t_correct_count t /\
  t_correct_count t + t_wrong_count t <= n /\
  t_total_students t = t_correct_count t + t_wrong_count t.

(** The same for a finished record of a table with [n] rows. *)
Definition stats_ok (n : Z) (s : QuestionStats) : Prop :=
  wrong_count s = Z.of_nat (List.length (wrong_students s)) /\
  0 <= correct_count s /\
  correct_count s + wrong_count s <= n.


(** A hand-written region file: question numbers 5 and 2, out of order,
    the second rectangle below the admission size. *)
Definition shuffled_config : json :=
  Array [record 5 100 100 50 50; record 2 10 10 5 5].

(** A table without columns. *)
Definition empty_table : DataFrame := {| columns := []; rows := [] |}.

(** Two pointer positions, a long drag apart. *)
Definition corner_a : QPoint := {| px := 10; py := 10 |}.
Definition corner_b : QPoint := {| px := 110; py := 60 |}.

(** * Properties of the region store *)

Section WrapFacts.

Lemma in_int_iff z : in_int z = true <-> INT_MIN <= z <= INT_MAX.
Proof.
  unfold in_int. rewrite andb_true_iff, !Z.leb_le. tauto.
Qed.

Lemma wrap_in_int z : in_int (wrap z) = true.
Proof.
  apply in_int_iff. unfold wrap, INT_MIN, INT_MAX.
  pose proof (Z.mod_pos_bound (z + 2 ^ 31) (2 ^ 32) ltac:(lia)). lia.
Qed.

Lemma wrap_id z : in_int z = true -> wrap z = z.
Proof.
  intros H. apply in_int_iff in H. unfold wrap, INT_MIN, INT_MAX in *.
  rewrite Z.mod_small by lia. lia.
Qed.

Lemma wrap_corner a b : wrap (a + wrap (b - a + 1) - 1) = wrap b.
Proof.
  unfold wrap. f_equal.
  replace (a + ((b - a + 1 + 2 ^ 31) mod 2 ^ 32 - 2 ^ 31) - 1 + 2 ^ 31)
    with ((a - 1) + (b - a + 1 + 2 ^ 31) mod 2 ^ 32) by lia.
  rewrite Zplus_mod_idemp_r. f_equal. lia.
Qed.

Lemma c_int_ok z : in_int z = true -> c_int z = Ok z.
Proof. intros H. unfold c_int. now rewrite H. Qed.

(** Rebuilding a rectangle from its [x], [y], [width], [height] gives the
    rectangle back. *)
Lemma QRect_new_accessors r :
  rect_ok r ->
  QRect_new (QRect_x r) (QRect_y r) (QRect_width r) (QRect_height r) = Ok r.
Proof.
  intros (Hx1 & Hy1 & Hx2 & Hy2). unfold QRect_new, QRect_x, QRect_y.
  rewrite (c_int_ok _ Hx1), (c_int_ok _ Hy1). cbn [rbind].
  unfold QRect_width, QRect_height.
  rewrite !c_int_ok by apply wrap_in_int. cbn [rbind].
  unfold QRect_xywh. rewrite !wrap_corner, (wrap_id _ Hx2), (wrap_id _ Hy2).
  now destruct r.
Qed.

End WrapFacts.

Section RegionStore.
Context {RT : Runtime}.

Lemma int_field_record r q :
  int_field (region_record (r, q)) REC_X = Ok (QRect_x r) /\
  int_field (region_record (r, q)) REC_Y = Ok (QRect_y r) /\
  int_field (region_record (r, q)) REC_WIDTH = Ok (QRect_width r) /\
  int_field (region_record (r, q)) REC_HEIGHT = Ok (QRect_height r) /\
  getitem (region_record (r, q)) REC_QNUM = Ok q.
Proof. repeat split; reflexivity. Qed.

Lemma set_rectangles_twice w a b :
  set_rectangles (set_rectangles w a) b = set_rectangles w b.
Proof. reflexivity. Qed.

Lemma enumerate_length {A} (l : list A) k : List.length (enumerate l k) = List.length l.
Proof. revert k; induction l; intros; cbn; auto. Qed.

Lemma enumerate_app {A} (l l' : list A) k :
  enumerate (l ++ l') k = enumerate l k ++ enumerate l' (k + Z.of_nat (List.length l)).
Proof.
  revert k; induction l as [|a l IH]; intros k; cbn [enumerate app List.length].
  - now rewrite Z.add_0_r.
  - rewrite IH. do 3 f_equal. lia.
Qed.

Lemma numbered_app rs rs' k :
  numbered (rs ++ rs') k = numbered rs k ++ numbered rs' (k + Z.of_nat (List.length rs)).
Proof. unfold numbered. now rewrite enumerate_app, map_app. Qed.

Lemma numbered_length rs k : List.length (numbered rs k) = List.length rs.
Proof. unfold numbered. now rewrite length_map, enumerate_length. Qed.

Lemma py_max_next m : py_max (Int m) (Atom (Num (Int (m + 1)))) = Ok (Int (m + 1)).
Proof.
  unfold py_max, num_gt; cbn.
  replace (m + 1 ?= m) with Gt; [reflexivity|].
  symmetry. apply Z.compare_gt_iff. lia.
Qed.

Lemma numbered_cons r rs k :
  numbered (r :: rs) k = (r, Atom (Num (Int k))) :: numbered rs (k + 1).
Proof. reflexivity. Qed.

(** The loading loop run on the records of a store filled by appends. *)
Lemma load_loop_numbered rs : forall m w,
  Forall rect_ok rs ->
  load_loop (map region_record (numbered rs (m + 1))) (Int m) w =
    (set_rectangles w (rectangles w ++ numbered rs (m + 1)),
     Ok (Int (m + Z.of_nat (List.length rs)))).
Proof.
  induction rs as [|r rs IH]; intros m w Hok.
  - cbn. rewrite app_nil_r, Z.add_0_r. now destruct w.
  - inversion Hok as [|? ? Hr Hrs]; subst.
    rewrite numbered_cons. cbn [map load_loop].
    destruct (int_field_record r (Atom (Num (Int (m + 1))))) as (Ex & Ey & Ew & Eh & Eq).
    unfold bind at 1. unfold lift at 1.
    rewrite Ex, Ey, Ew, Eh. cbn [rbind].
    rewrite (QRect_new_accessors r Hr).
    unfold bind at 1. unfold lift at 1. rewrite Eq.
    unfold bind at 1. unfold modify at 1.
    unfold bind at 1. unfold lift at 1. rewrite py_max_next.
    rewrite IH by assumption.
    rewrite set_rectangles_twice. cbn [rectangles set_rectangles set_store].
    rewrite <- app_assoc. cbn [app List.length].
    do 3 f_equal. lia.
Qed.

Lemma max_qnum_numbered rs : forall m,
  max_qnum_from (Int m) (numbered rs (m + 1)) = Ok (Int (m + Z.of_nat (List.length rs))).
Proof.
  induction rs as [|r rs IH]; intros m.
  - cbn. now rewrite Z.add_0_r.
  - rewrite numbered_cons. cbn [max_qnum_from]. rewrite py_max_next. cbn [rbind].
    rewrite IH. cbn [List.length]. do 2 f_equal. lia.
Qed.

Lemma normalized_ok p q :
  point_ok p -> point_ok q -> rect_ok (QRect_normalized (QRect_of_points p q)).
Proof.
  intros (Hpx & Hpy) (Hqx & Hqy). unfold QRect_normalized, QRect_of_points, rect_ok.
  cbn [rx1 ry1 rx2 ry2].
  destruct (px q <? wrap (px p - 1)), (py q <? wrap (py p - 1));
    cbn [rx1 ry1 rx2 ry2]; auto.
Qed.

Lemma numbered_removelast rs k :
  removelast (numbered rs k) = numbered (removelast rs) k.
Proof.
  destruct rs as [|r rs] using rev_ind; [reflexivity|].
  rewrite numbered_app. unfold numbered at 2. cbn [enumerate map].
  now rewrite !removelast_last.
Qed.

Lemma removelast_length {A} (a : A) l :
  Z.of_nat (List.length (removelast (a :: l))) = Z.of_nat (List.length (a :: l)) - 1.
Proof.
  destruct (exists_last (l := a :: l) ltac:(discriminate)) as (l' & b & E).
  rewrite E, removelast_last, length_app. cbn. lia.
Qed.

Lemma Forall_removelast {A} (P : A -> Prop) l : Forall P l -> Forall P (removelast l).
Proof.
  induction 1 as [|a l Ha Hl IH]; [constructor|].
  cbn. destruct l; [constructor|]. constructor; auto.
Qed.

Lemma session_inv_reachable sf w : reachable sf w -> session_inv w.
Proof.
  induction 1 as [|w e Hreach (rs & Erect & Ecnt & Hok & Hadm & Hstart) He].
  - exists []. split_inv; auto; discriminate.
  - destruct e as [b pos|pos|b pos| |]; cbn [handle event_ok] in *.
    + unfold mousePressEvent. destruct (is_left b).
      * exists rs. split_inv; auto. cbn. intros p [= <-]. exact He.
      * exists rs. split_inv; auto.
    + unfold mouseMoveEvent. destruct (is_drawing w); exists rs; split_inv; auto.
    + unfold mouseReleaseEvent.
      destruct (is_left b && is_drawing w); [|exists rs; split_inv; auto].
      cbn [start_point set_points].
      destruct (start_point w) as [start|] eqn:Es.
      * set (rect := QRect_normalized (QRect_of_points start pos)).
        destruct (admissible rect) eqn:Ea.
        -- exists (rs ++ [rect]).
           cbn [rectangles current_question_number set_store set_points
                start_point is_drawing].
           rewrite Erect, Ecnt, numbered_app, length_app.
           split_inv; try discriminate.
           ++ reflexivity.
           ++ cbn [num_succ List.length]. f_equal. lia.
           ++ apply Forall_app. split; [assumption|]. constructor; [|constructor].
              apply normalized_ok; auto.
           ++ apply Forall_app. split; [assumption|]. constructor; [assumption|constructor].
        -- exists rs. split_inv; auto; discriminate.
      * exists rs. split_inv; auto; discriminate.
    + unfold clear_last. destruct rs as [|r rs].
      * rewrite Erect. cbn [numbered enumerate map]. exists []. split_inv; auto.
      * rewrite Erect at 1. rewrite numbered_cons.
        exists (removelast (r :: rs)).
        cbn [rectangles current_question_number set_store start_point].
        rewrite Erect, Ecnt. unfold pop. rewrite numbered_removelast.
        split_inv; auto using Forall_removelast.
        cbn [num_pred]. rewrite removelast_length. f_equal. lia.
    + exists []. split_inv; auto.
Qed.

End RegionStore.

Section RegionStoreClaims.
Context {RT : Runtime}.

Lemma load_loop_counter items : forall m w w' r,
  load_loop items m w = (w', r) ->
  current_question_number w' = current_question_number w /\
  scale_factor w' = scale_factor w.
Proof.
  induction items as [|item rest IH]; intros m w w' r.
  - cbn. intros [= <- _]. auto.
  - cbn [load_loop]. unfold bind at 1. unfold lift at 1.
    match goal with |- context [rbind ?a ?k] => destruct (rbind a k) as [rect|e] end;
      [|intros [= <- _]; auto].
    unfold bind at 1. unfold lift at 1.
    destruct (getitem item REC_QNUM) as [qnum|e]; [|intros [= <- _]; auto].
    unfold bind at 1. unfold modify at 1.
    unfold bind at 1. unfold lift at 1.
    destruct (py_max m qnum) as [m'|e]; [|intros [= <- _]; auto].
    intros H. apply IH in H. exact H.
Qed.

(** A failed load never touches the counter, and a file that cannot be
    opened or parsed leaves the whole widget as it was. *)
Lemma load_failure_keeps_counter w file w' :
  load_regions_config w file = (w', false) ->
  current_question_number w' = current_question_number w.
Proof.
  unfold load_regions_config, load_try.
  unfold bind at 1. unfold lift at 1.
  destruct file as [config|e]; [|intros [= <-]; reflexivity].
  unfold bind at 1. unfold modify at 1.
  unfold bind at 1. unfold lift at 1.
  destruct (iter_items config) as [items|e]; [|intros [= <-]; reflexivity].
  unfold bind at 1.
  destruct (load_loop items (Int 0) (set_rectangles w [])) as [w1 [m|e]] eqn:E.
  - unfold bind, modify, ret. intros H. inversion H.
  - intros [= <-]. now apply load_loop_counter in E.
Qed.

Lemma load_unreadable_file w e :
  load_regions_config w (Raise e) = (w, false).
Proof. reflexivity. Qed.

(** C1 (evaluation at the failing input).  Loading a region file whose
    second record is malformed reports failure, yet the store is not left
    as it was: the two regions drawn before are gone, the first record of
    the file has taken their place, and the counter still reads 3. *)
Theorem load_malformed_changes_store :
  load_regions_config two_regions (Ok malformed_config)
    = (set_rectangles two_regions [(QRect_xywh 100 100 50 50, num_atom 7)], false)
  /\ List.length (rectangles two_regions) = 2%nat
  /\ current_question_number two_regions = Int 3
  /\ rectangles (fst (load_regions_config two_regions (Ok malformed_config)))
       <> rectangles two_regions.
Proof.
  split; [reflexivity|]. split; [reflexivity|]. split; [reflexivity|].
  cbv. discriminate.
Qed.

(** C9.  Saving the store of any operator session (non-empty or empty)
    and loading the saved document, into a widget in whatever state,
    restores the same ordered list of rectangles with the same question
    numbers and the same counter; that counter is one more than the
    maximum question number. *)
Theorem region_store_round_trip sf (w w0 : ImageCropWidget) :
  reachable sf w ->
  load_regions_config w0 (Ok (save_regions_config w))
    = (set_store w0 (rectangles w) (current_question_number w), true)
  /\ exists m, max_qnum_from (Int 0) (rectangles w) = Ok m
               /\ current_question_number w = num_succ m.
Proof.
  intros Hreach.
  destruct (session_inv_reachable sf w Hreach) as (rs & Erect & Ecnt & Hok & _ & _).
  split.
  - unfold load_regions_config, load_try, save_regions_config.
    unfold bind at 1. unfold lift at 1.
    unfold bind at 1. unfold modify at 1.
    unfold bind at 1. unfold lift at 1. cbn [iter_items].
    unfold bind at 1. rewrite Erect.
    rewrite (load_loop_numbered rs 0 _ Hok).
    unfold bind, modify, ret. cbn [rectangles set_rectangles set_store app].
    rewrite Ecnt. change (0 + 1) with 1. unfold set_rectangles, set_store.
    cbn [num_succ rectangles scale_factor start_point end_point is_drawing].
    do 3 f_equal. lia.
  - exists (Int (0 + Z.of_nat (List.length rs))). rewrite Erect, Ecnt. split.
    + apply (max_qnum_numbered rs 0).
    + cbn [num_succ]. f_equal. lia.
Qed.

(** C10.  Whatever the store holds, a well-formed file with a 5 by 5
    record loads successfully and puts that rectangle in the store,
    although the admission test applied to drawn rectangles rejects it. *)
Theorem load_bypasses_admission (w : ImageCropWidget) :
  exists config rect qnum w',
    load_regions_config w (Ok config) = (w', true) /\
    In (rect, qnum) (rectangles w') /\
    QRect_width rect = 5 /\ QRect_height rect = 5 /\
    admissible rect = false.
Proof.
  exists (Array [record 1 20 30 5 5]), (QRect_xywh 20 30 5 5), (num_atom 1).
  eexists. split; [reflexivity|].
  split; [left; reflexivity|].
  repeat split; reflexivity.
Qed.

(** Every region of a store reached by an operator session did pass the
    admission test. *)
Lemma session_regions_admitted sf w :
  reachable sf w -> Forall (fun e => admissible (fst e) = true) (rectangles w).
Proof.
  intros Hreach.
  destruct (session_inv_reachable sf w Hreach) as (rs & Erect & _ & _ & Hadm & _).
  rewrite Erect. clear Erect. generalize 1.
  induction Hadm as [|r rs Hr Hrs IH]; intros k.
  - constructor.
  - rewrite numbered_cons. constructor; [exact Hr|apply IH].
Qed.

End RegionStoreClaims.

Lemma two_regions_reachable : reachable half two_regions.
Proof.
  unfold two_regions. cbn [fold_left].
  repeat (apply reach_step; [|cbn; split; reflexivity]).
  apply reach_new.
Qed.

Lemma region_store_round_trip_witness :
  reachable half two_regions /\
  rectangles two_regions <> [] /\
  load_regions_config example_widget (Ok (save_regions_config two_regions))
    = (set_store example_widget (rectangles two_regions)
         (current_question_number two_regions), true) /\
  exists m, max_qnum_from (Int 0) (rectangles two_regions) = Ok m
            /\ current_question_number two_regions = num_succ m.
Proof.
  split; [exact two_regions_reachable|].
  split; [cbv; discriminate|].
  exact (region_store_round_trip half two_regions example_widget
           two_regions_reachable).
Defined.

(** * Float arithmetic at power-of-two scale factors *)

Section PowerOfTwoScale.

(** [int()] rounds toward zero: the magnitude of the result is the floor
    of the magnitude of the float. *)
Lemma trunc_finite_toward_zero s m e :
  trunc_finite s m e =
    cond_Zopp s (if 0 <=? e then Zpos m * 2 ^ e else Zpos m / 2 ^ (- e)).
Proof.
  unfold trunc_finite. f_equal. destruct e as [|p|p]; cbn [Z.leb Z.compare].
  - cbn. lia.
  - apply Z.shiftl_mul_pow2. lia.
  - apply Z.shiftr_div_pow2. lia.
Qed.

Lemma digits2_iter_xO m d :
  digits2_pos (Pos.iter xO m d) = (digits2_pos m + d)%positive.
Proof.
  induction d as [|d IH] using Pos.peano_ind.
  - cbn. lia.
  - rewrite Pos.iter_succ. cbn [digits2_pos]. rewrite IH. lia.
Qed.

Lemma Zpos_iter_xO m d : Zpos (Pos.iter xO m d) = Zpos m * 2 ^ Zpos d.
Proof.
  induction d as [|d IH] using Pos.peano_ind.
  - cbn. lia.
  - rewrite Pos.iter_succ, Pos2Z.inj_xO, IH, Pos2Z.inj_succ, Z.pow_succ_r by lia. lia.
Qed.

Lemma fexp_normal e : - 1074 <= e - 53 -> fexp prec emax e = e - 53.
Proof. unfold fexp, emin, prec, emax. lia. Qed.

(** Rounding an exact full-precision mantissa changes nothing. *)
Lemma binary_round_aux_exact s m e :
  full_mantissa m -> - 1074 <= e <= 971 ->
  binary_round_aux prec emax s (Zpos m) e loc_Exact = S754_finite s m e.
Proof.
  intros Hm He. unfold binary_round_aux, shr_fexp. cbn [Zdigits2 shr_record_of_loc].
  rewrite Hm, fexp_normal by lia.
  replace (53 + e - 53 - e) with 0 by lia. cbn [shr shr_m loc_of_shr_record round_nearest_even].
  cbn [Zdigits2 shr_record_of_loc]. rewrite Hm, fexp_normal by lia.
  replace (53 + e - 53 - e) with 0 by lia. cbn [shr shr_m].
  unfold emax, prec. destruct (Z.leb_spec e (1024 - 53)); [reflexivity|lia].
Qed.

Lemma aligned_full p : Zpos (digits2_pos p) <= 53 -> full_mantissa (aligned p).
Proof.
  intros H. unfold full_mantissa, aligned.
  destruct (53 - Zpos (digits2_pos p)) as [|d|d] eqn:E; try lia.
  rewrite digits2_iter_xO. lia.
Qed.

Lemma aligned_value p :
  Zpos (digits2_pos p) <= 53 ->
  Zpos (aligned p) = Zpos p * 2 ^ (53 - Zpos (digits2_pos p)).
Proof.
  intros H. unfold aligned.
  destruct (53 - Zpos (digits2_pos p)) as [|d|d] eqn:E; try lia.
  apply Zpos_iter_xO.
Qed.

Lemma binary_round_small s p :
  Zpos (digits2_pos p) <= 53 ->
  binary_round prec emax s p 0 = S754_finite s (aligned p) (Zpos (digits2_pos p) - 53).
Proof.
  intros H. unfold binary_round, shl_align.
  rewrite Z.add_0_r, fexp_normal by lia. rewrite Z.sub_0_r.
  pose proof (aligned_full p H) as Hfull. unfold aligned in *.
  destruct (Zpos (digits2_pos p) - 53) as [|d|d] eqn:E; try lia.
  - replace (53 - Zpos (digits2_pos p)) with 0 in * by lia.
    apply binary_round_aux_exact; [assumption|lia].
  - replace (53 - Zpos (digits2_pos p)) with (Zpos d) in * by lia.
    rewrite <- E. apply binary_round_aux_exact; [assumption|lia].
Qed.

Lemma digits2_bound p n : Zpos p < 2 ^ n -> 0 <= n -> Zpos (digits2_pos p) <= n.
Proof.
  revert n. induction p as [p IH|p IH|]; intros n Hp Hn; cbn [digits2_pos].
  - assert (0 < n) by (destruct (Z.eq_dec n 0); [subst; cbn in Hp; lia|lia]).
    rewrite Pos2Z.inj_succ. specialize (IH (n - 1)).
    replace n with (Z.succ (n - 1)) in Hp by lia. rewrite Z.pow_succ_r in Hp by lia.
    lia.
  - assert (0 < n) by (destruct (Z.eq_dec n 0); [subst; cbn in Hp; lia|lia]).
    rewrite Pos2Z.inj_succ. specialize (IH (n - 1)).
    replace n with (Z.succ (n - 1)) in Hp by lia. rewrite Z.pow_succ_r in Hp by lia.
    lia.
  - destruct (Z.eq_dec n 0); [subst; cbn in Hp; lia|lia].
Qed.

(** Dividing a full-precision float by [2 ^ (- k)] adds [k] to its
    exponent. *)
Lemma fdiv_pow2 s m e k :
  full_mantissa m -> - 1000 <= e + k <= 971 ->
  fdiv (S754_finite s m e) (pow2_scale k) = S754_finite s m (e + k).
Proof.
  intros Hm He. unfold fdiv, SFdiv, pow2_scale, SFdiv_core_binary.
  cbn [Zdigits2]. rewrite Hm.
  change (digits2_pos 4503599627370496) with 53%positive.
  replace (53 + e - (53 + (- 52 - k))) with (e + k + 52) by lia.
  rewrite fexp_normal by lia.
  replace (Z.min (e + k + 52 - 53) (e - (- 52 - k))) with (e + k - 1) by lia.
  replace (e - (- 52 - k) - (e + k - 1)) with 53 by lia.
  cbn match.
  assert (Ediv : Z.div_eucl (Z.shiftl (Zpos m) 53) 4503599627370496 = (Zpos m~0, 0)).
  { rewrite Z.shiftl_mul_pow2 by lia.
    pose proof (Z.div_eucl_eq (Zpos m * 2 ^ 53) 4503599627370496 ltac:(lia)) as Hq.
    pose proof (Z.mod_pos_bound (Zpos m * 2 ^ 53) 4503599627370496 ltac:(lia)) as Hr.
    unfold Z.modulo, Z.div in *.
    destruct (Z.div_eucl (Zpos m * 2 ^ 53) 4503599627370496) as [q r].
    change (2 ^ 53) with (2 * 4503599627370496) in Hq.
    assert (q = 2 * Zpos m) by nia. assert (r = 0) by nia. subst. reflexivity. }
  rewrite Ediv. cbn [new_location Z.even new_location_even Z.eqb].
  rewrite xorb_false_r.
  unfold binary_round_aux, shr_fexp. cbn [Zdigits2 digits2_pos shr_record_of_loc].
  rewrite Hm. change (Zpos (Pos.succ 53)) with 54.
  rewrite fexp_normal by lia.
  replace (54 + (e + k - 1) - 53 - (e + k - 1)) with 1 by lia.
  cbn [shr iter_pos shr_1 orb shr_m loc_of_shr_record round_nearest_even].
  cbn [Zdigits2 shr_record_of_loc]. rewrite Hm, fexp_normal by lia.
  replace (53 + (e + k - 1 + 1) - 53 - (e + k - 1 + 1)) with 0 by lia.
  cbn [shr shr_m]. replace (e + k - 1 + 1) with (e + k) by lia.
  unfold emax, prec. destruct (Z.leb_spec (e + k) (1024 - 53)); [reflexivity|lia].
Qed.

Lemma trunc_aligned s p k :
  Zpos (digits2_pos p) <= 53 -> 0 <= k ->
  trunc_finite s (aligned p) (Zpos (digits2_pos p) - 53 + k) = cond_Zopp s (Zpos p * 2 ^ k).
Proof.
  intros Hd Hk. rewrite trunc_finite_toward_zero, aligned_value by assumption.
  f_equal. set (d := Zpos (digits2_pos p)) in *.
  destruct (Z.leb_spec 0 (d - 53 + k)).
  - rewrite <- Z.mul_assoc, <- Z.pow_add_r by lia. do 2 f_equal. lia.
  - replace (53 - d) with (k + (- (d - 53 + k))) by lia.
    rewrite Z.pow_add_r by lia. rewrite Z.mul_assoc.
    apply Z.div_mul. apply Z.pow_nonzero; lia.
Qed.

(** At the scale factor [2 ^ (- k)] a display coordinate is multiplied by
    [2 ^ k], exactly. *)
Lemma to_original_pow2 k c :
  0 <= k <= 64 -> in_int c = true ->
  to_original (pow2_scale k) c = Ok (c * 2 ^ k).
Proof.
  intros Hk Hc. apply in_int_iff in Hc. unfold INT_MIN, INT_MAX in Hc.
  change (2 ^ 31) with 2147483648 in Hc.
  unfold to_original, int_truediv_float, float_of_Z, binary_normalize.
  destruct c as [|p|p].
  - reflexivity.
  - assert (Hd : Zpos (digits2_pos p) <= 31) by (apply digits2_bound; [change (2 ^ 31) with 2147483648|]; lia).
    rewrite binary_round_small by lia. cbn [is_inf is_zero pow2_scale].
    fold (pow2_scale k). rewrite fdiv_pow2 by (try apply aligned_full; lia).
    cbn [rbind int_of_float]. rewrite trunc_aligned by lia. reflexivity.
  - assert (Hd : Zpos (digits2_pos p) <= 32)
      by (apply digits2_bound; [change (2 ^ 32) with 4294967296|]; lia).
    rewrite binary_round_small by lia. cbn [is_inf is_zero pow2_scale].
    fold (pow2_scale k). rewrite fdiv_pow2 by (try apply aligned_full; lia).
    cbn [rbind int_of_float]. rewrite trunc_aligned by lia.
    cbn [cond_Zopp]. f_equal. lia.
Qed.

Example half_is_pow2 : half = pow2_scale 1.
Proof. vm_compute. reflexivity. Qed.

Example one_is_pow2 : float_of_Z 1 = pow2_scale 0.
Proof. vm_compute. reflexivity. Qed.

End PowerOfTwoScale.

(** * Properties of the cropper *)

Section Cropper.

Lemma QRect_right_width r :
  span_ok r -> QRect_right r = QRect_x r + QRect_width r - 1.
Proof.
  intros [H _]. unfold QRect_right, QRect_x, QRect_width.
  rewrite (wrap_id _ H). lia.
Qed.

Lemma QRect_bottom_height r :
  span_ok r -> QRect_bottom r = QRect_y r + QRect_height r - 1.
Proof.
  intros [_ H]. unfold QRect_bottom, QRect_y, QRect_height.
  rewrite (wrap_id _ H). lia.
Qed.

Lemma crop_box_inv sf r x1 y1 x2 y2 :
  crop_box sf r = Ok (x1, y1, x2, y2) ->
  to_original sf (QRect_x r) = Ok x1 /\
  to_original sf (QRect_y r) = Ok y1 /\
  to_original sf (QRect_right r) = Ok x2 /\
  to_original sf (QRect_bottom r) = Ok y2.
Proof.
  unfold crop_box.
  destruct (to_original sf (QRect_x r)); [|discriminate].
  destruct (to_original sf (QRect_y r)); [|discriminate].
  destruct (to_original sf (QRect_right r)); [|discriminate].
  destruct (to_original sf (QRect_bottom r)); [|discriminate].
  cbn. intros [= -> -> -> ->]. auto.
Qed.

Lemma key_lt_numeric a b :
  as_num a <> None -> as_num b <> None -> exists v, key_lt a b = Ok v.
Proof.
  unfold key_lt. destruct (as_num a), (as_num b); try congruence; eauto.
Qed.

Lemma insert_by_key_perm x : forall l,
  numeric_key x -> Forall numeric_key l ->
  exists l', insert_by_key x l = Ok l' /\ Permutation (x :: l) l'.
Proof.
  induction l as [|y l IH]; intros Hx Hl.
  - exists [x]. split; [reflexivity|apply Permutation_refl].
  - inversion Hl as [|? ? Hy Hl']; subst. cbn [insert_by_key].
    destruct (key_lt_numeric (snd y) (snd x) Hy Hx) as [[|] ->]; cbn [rbind].
    + destruct (IH Hx Hl') as (l' & -> & Hp). cbn [rbind].
      exists (y :: l'). split; [reflexivity|].
      eapply perm_trans; [apply perm_swap|]. now apply perm_skip.
    + exists (x :: y :: l). split; [reflexivity|apply Permutation_refl].
Qed.

Lemma sorted_by_qnum_perm l :
  Forall numeric_key l ->
  exists s, sorted_by_qnum l = Ok s /\ Permutation l s.
Proof.
  induction 1 as [|x l Hx Hl (s & Es & Hp)].
  - exists []. split; [reflexivity|apply perm_nil].
  - cbn [sorted_by_qnum]. rewrite Es. cbn [rbind].
    assert (Hs : Forall numeric_key s).
    { apply Forall_forall. intros e He. rewrite Forall_forall in Hl.
      apply Hl. eapply Permutation_in; [apply Permutation_sym; exact Hp|exact He]. }
    destruct (insert_by_key_perm x s Hx Hs) as (l' & -> & Hp').
    exists l'. split; [reflexivity|].
    eapply perm_trans; [apply perm_skip; exact Hp|exact Hp'].
Qed.

(** [Image_crop] succeeds on the boxes described by [croppable], and on
    no other. *)
Lemma Image_crop_croppable b : croppable b -> Image_crop b = Ok b.
Proof.
  destruct b as [[[x0 y0] x1] y1]. intros (Hx & Hy & Hpix & Hl & Hr & Ht & Hb).
  unfold Image_crop.
  destruct (Z.ltb_spec x1 x0); [lia|]. destruct (Z.ltb_spec y1 y0); [lia|].
  cbv zeta. rewrite !Z.abs_eq by lia.
  change (2 * MAX_IMAGE_PIXELS) with 178956970.
  destruct (Z.ltb_spec 178956970 (Z.max 1 (x1 - x0) * Z.max 1 (y1 - y0))); [lia|].
  assert (Hin : forall z, - 2147483648 <= z <= 2147483647 -> in_int z = true).
  { intros z Hz. apply in_int_iff. unfold INT_MIN, INT_MAX.
    change (2 ^ 31) with 2147483648. lia. }
  rewrite !Hin by lia. reflexivity.
Qed.

Lemma Image_crop_inv b b' : Image_crop b = Ok b' -> b' = b /\ croppable b.
Proof.
  destruct b as [[[x0 y0] x1] y1]. unfold Image_crop.
  destruct (Z.ltb_spec x1 x0); [discriminate|].
  destruct (Z.ltb_spec y1 y0); [discriminate|].
  cbv zeta. rewrite !Z.abs_eq by lia.
  change (2 * MAX_IMAGE_PIXELS) with 178956970.
  destruct (Z.ltb_spec 178956970 (Z.max 1 (x1 - x0) * Z.max 1 (y1 - y0)));
    [discriminate|].
  destruct (in_int x0) eqn:Ix0; [|discriminate].
  destruct (in_int y0) eqn:Iy0; [|discriminate].
  destruct (in_int x1) eqn:Ix1; [|discriminate].
  destruct (in_int y1) eqn:Iy1; [|discriminate].
  cbn [andb]. intros [= <-]. split; [reflexivity|].
  apply in_int_iff in Ix0, Iy0, Ix1, Iy1. unfold INT_MIN, INT_MAX in *.
  change (2 ^ 31) with 2147483648 in *.
  unfold croppable. repeat split; lia.
Qed.

(** The integer [to_original] returns is the binary64 quotient rounded
    toward zero. *)
Lemma to_original_truncated sf c z :
  to_original sf c = Ok z -> truncated_quotient sf c = Some z.
Proof.
  unfold to_original, int_truediv_float, truncated_quotient.
  destruct (is_inf (float_of_Z c)); [discriminate|].
  destruct (is_zero sf); [discriminate|]. cbn [rbind].
  destruct (fdiv (float_of_Z c) sf) as [sg|sg| |sg m e]; cbn [int_of_float];
    try discriminate.
  - now intros [= <-].
  - intros [= <-]. f_equal. rewrite trunc_finite_toward_zero.
    destruct (Z.leb_spec 0 e) as [He|He].
    + rewrite (Z.max_r 0 e), (Z.max_l 0 (- e)) by lia.
      change (2 ^ 0) with 1. rewrite Z.quot_1_r.
      destruct sg; cbn [cond_Zopp]; lia.
    + rewrite (Z.max_l 0 e), (Z.max_r 0 (- e)) by lia.
      change (2 ^ 0) with 1. rewrite Z.mul_1_r.
      assert (Hd : 0 < 2 ^ (- e)) by (apply Z.pow_pos_nonneg; lia).
      destruct sg; cbn [cond_Zopp].
      * rewrite Z.quot_opp_l by lia. rewrite Z.quot_div_nonneg by lia. reflexivity.
      * rewrite Z.quot_div_nonneg by lia. reflexivity.
Qed.

Lemma crop_all_total sf l :
  Forall (fun e => exists b, crop_box sf (fst e) = Ok b /\ croppable b) l ->
  exists regions,
    crop_all sf l = Ok regions /\
    List.length regions = List.length l /\
    forall rect qnum, In (rect, qnum) l ->
      exists b, In (qnum, b) regions /\ crop_box sf rect = Ok b.
Proof.
  induction 1 as [|[rect qnum] l (b & Hb & Hc) Hl (regions & Er & Hlen & Hin)].
  - exists []. split; [reflexivity|]. split; [reflexivity|]. intros ? ? [].
  - cbn [fst] in Hb. cbn [crop_all]. rewrite Hb. cbn [rbind].
    rewrite (Image_crop_croppable b Hc), Er. cbn [rbind].
    exists ((qnum, b) :: regions). split; [reflexivity|].
    split; [cbn; now rewrite Hlen|].
    intros rect' qnum' [[= <- <-]|Hin'].
    + exists b. split; [now left|assumption].
    + destruct (Hin _ _ Hin') as (b' & Hb' & Hc'). exists b'. split; [now right|assumption].
Qed.

(** At the scale factor [2 ^ (- k)] (1.0, 0.5, ...) the box of a
    rectangle is its corners multiplied by [2 ^ k]: no rounding occurs. *)
Lemma crop_box_pow2 k r :
  0 <= k <= 64 -> rect_ok r -> span_ok r ->
  crop_box (pow2_scale k) r =
    Ok (QRect_x r * 2 ^ k, QRect_y r * 2 ^ k,
        (QRect_x r + QRect_width r - 1) * 2 ^ k,
        (QRect_y r + QRect_height r - 1) * 2 ^ k).
Proof.
  intros Hk (Hx1 & Hy1 & Hx2 & Hy2) Hspan. unfold crop_box.
  rewrite <- (QRect_right_width r Hspan), <- (QRect_bottom_height r Hspan).
  unfold QRect_x, QRect_y, QRect_right, QRect_bottom.
  rewrite !to_original_pow2 by assumption. reflexivity.
Qed.

(** C2 (counterexample).  At scale 0.5 the display rectangle
    [(x=100, y=100, width=50, height=50)] is cut out of the original with
    the box [(200, 200, 298, 298)], not [(200, 200, 300, 300)]; a negative
    coordinate is rounded toward zero, not down; and a stored region of
    width 0, whose conversions succeed, is not cut out at all: its box
    [(200, 200, 198, 198)] makes the crop raise [ValueError]. *)
Lemma crop_example_is_not_300 :
  get_cropped_regions example_widget = Ok [(num_atom 1, (200, 200, 298, 298))]
  /\ spec_crop_box 1 2 100 100 50 50 = (200, 200, 300, 300)
  /\ get_cropped_regions example_widget
       <> Ok [(num_atom 1, spec_crop_box 1 2 100 100 50 50)]
  /\ to_original (scale_of_widths 4 5) (-1) = Ok (-1)
  /\ spec_floor_scaled 4 5 (-1) = -2
  /\ rectangles flat_widget = [(QRect_xywh 100 100 0 0, num_atom 1)]
  /\ crop_box (scale_factor flat_widget) (QRect_xywh 100 100 0 0)
       = Ok (200, 200, 198, 198)
  /\ get_cropped_regions flat_widget = Raise ValueError.
Proof.
  split; [vm_compute; reflexivity|].
  split; [reflexivity|].
  split; [vm_compute; discriminate|].
  repeat split; vm_compute; reflexivity.
Qed.

(** C2 (amended).  When the question numbers are numbers, every
    conversion succeeds and every resulting box is one the crop accepts
    (right not left of left, bottom not above top, at most 178956970
    pixels, C [int] coordinates), [get_cropped_regions] returns one image
    per stored region, and the image of a region is cut with the box
    [(T (x), T (y), T (x + width - 1), T (y + height - 1))] where
    [T c = int(c / scale_factor)] is the binary64 quotient rounded toward
    zero: the right and bottom bounds come from Qt's [right()] and
    [bottom()], which are [x + width - 1] and [y + height - 1].  (At the
    scale factors 1.0, 0.5, ... the conversions do succeed and [T c] is
    [c], [2 * c], ...: [crop_box_pow2].) *)
Theorem crop_coordinate_mapping (w : ImageCropWidget) :
  Forall numeric_key (rectangles w) ->
  Forall (fun e => span_ok (fst e) /\
                   exists b, crop_box (scale_factor w) (fst e) = Ok b /\ croppable b)
         (rectangles w) ->
  exists regions,
    get_cropped_regions w = Ok regions /\
    List.length regions = List.length (rectangles w) /\
    forall rect qnum, In (rect, qnum) (rectangles w) ->
      exists left top right bottom,
        In (qnum, (left, top, right, bottom)) regions /\
        croppable (left, top, right, bottom) /\
        truncated_quotient (scale_factor w) (QRect_x rect) = Some left /\
        truncated_quotient (scale_factor w) (QRect_y rect) = Some top /\
        truncated_quotient (scale_factor w) (QRect_x rect + QRect_width rect - 1)
          = Some right /\
        truncated_quotient (scale_factor w) (QRect_y rect + QRect_height rect - 1)
          = Some bottom.
Proof.
  intros Hkeys Hboxes.
  destruct (sorted_by_qnum_perm _ Hkeys) as (s & Es & Hp).
  assert (Hs : Forall (fun e => exists b, crop_box (scale_factor w) (fst e) = Ok b
                                          /\ croppable b) s).
  { apply Forall_forall. intros e He. rewrite Forall_forall in Hboxes.
    apply Hboxes. eapply Permutation_in; [apply Permutation_sym; exact Hp|exact He]. }
  destruct (crop_all_total _ _ Hs) as (regions & Er & Hlen & Hin).
  exists regions. unfold get_cropped_regions. rewrite Es. cbn [rbind].
  split; [exact Er|].
  split; [rewrite Hlen; symmetry; now apply Permutation_length|].
  intros rect qnum Hrq.
  destruct (Hin rect qnum (Permutation_in _ Hp Hrq)) as ([[[x1 y1] x2] y2] & Hb & Hc).
  rewrite Forall_forall in Hboxes. destruct (Hboxes _ Hrq) as (Hspan & b & Eb & Hcrop).
  cbn [fst] in Hspan, Eb. rewrite Eb in Hc. injection Hc as ->.
  apply crop_box_inv in Eb. destruct Eb as (E1 & E2 & E3 & E4).
  exists x1, y1, x2, y2.
  rewrite <- (QRect_right_width _ Hspan), <- (QRect_bottom_height _ Hspan).
  auto 7 using to_original_truncated.
Qed.

Lemma crop_coordinate_mapping_witness :
  Forall numeric_key (rectangles example_widget) /\
  Forall (fun e => span_ok (fst e) /\
                   exists b, crop_box (scale_factor example_widget) (fst e) = Ok b
                             /\ croppable b)
         (rectangles example_widget) /\
  exists regions,
    get_cropped_regions example_widget = Ok regions /\
    List.length regions = List.length (rectangles example_widget) /\
    forall rect qnum, In (rect, qnum) (rectangles example_widget) ->
      exists left top right bottom,
        In (qnum, (left, top, right, bottom)) regions /\
        croppable (left, top, right, bottom) /\
        truncated_quotient (scale_factor example_widget) (QRect_x rect) = Some left /\
        truncated_quotient (scale_factor example_widget) (QRect_y rect) = Some top /\
        truncated_quotient (scale_factor example_widget)
          (QRect_x rect + QRect_width rect - 1) = Some right /\
        truncated_quotient (scale_factor example_widget)
          (QRect_y rect + QRect_height rect - 1) = Some bottom.
Proof.
  assert (Hk : Forall numeric_key (rectangles example_widget)).
  { constructor; [discriminate|constructor]. }
  assert (Hb : Forall (fun e => span_ok (fst e) /\
                 exists b, crop_box (scale_factor example_widget) (fst e) = Ok b
                           /\ croppable b)
                 (rectangles example_widget)).
  { constructor; [|constructor]. split.
    - split; reflexivity.
    - exists (200, 200, 298, 298). split; [vm_compute; reflexivity|].
      unfold croppable. repeat split; vm_compute; discriminate. }
  split; [exact Hk|]. split; [exact Hb|].
  exact (crop_coordinate_mapping example_widget Hk Hb).
Defined.

End Cropper.

(** * Properties of the table loader *)

Section LoaderClaims.
Context {RT : Runtime}.

Lemma scan_header_some g : forall indices k,
  scan_header g indices = Some k ->
  exists before after,
    indices = before ++ k :: after /\
    has_name_marker (nth k g []) = true /\
    forall j, In j before -> has_name_marker (nth j g []) = false.
Proof.
  induction indices as [|i rest IH]; intros k; cbn [scan_header]; [discriminate|].
  destruct (has_name_marker (nth i g [])) eqn:Ei.
  - intros [= <-]. exists [], rest. repeat split; auto. intros ? [].
  - intros H. destruct (IH k H) as (before & after & -> & Hk & Hb).
    exists (i :: before), after. repeat split; auto.
    intros j [<-|Hj]; auto.
Qed.

Lemma scan_header_none g : forall indices,
  scan_header g indices = None ->
  forall j, In j indices -> has_name_marker (nth j g []) = false.
Proof.
  induction indices as [|i rest IH]; cbn [scan_header]; intros H j; [intros []|].
  destruct (has_name_marker (nth i g [])) eqn:Ei; [discriminate|].
  intros [<-|Hj]; auto.
Qed.

Lemma range_split n before k after :
  range n = before ++ k :: after ->
  (k < n)%nat /\ forall j, (j < k)%nat -> In j before.
Proof.
  unfold range. intros E.
  assert (Hlen : List.length before = k).
  { assert (H := f_equal (fun l => nth (List.length before) l O) E).
    cbn beta in H. rewrite nth_middle in H.
    assert (Hb : (List.length before < n)%nat).
    { assert (H' := f_equal (@List.length nat) E).
      rewrite length_seq, length_app in H'. cbn in H'. lia. }
    rewrite seq_nth in H by exact Hb. lia. }
  assert (Hn := f_equal (@List.length nat) E).
  rewrite length_seq, length_app in Hn. cbn in Hn.
  split; [lia|].
  intros j Hj.
  assert (H := f_equal (fun l => nth j l O) E). cbn beta in H.
  rewrite seq_nth in H by lia. rewrite app_nth1 in H by lia.
  cbn in H. rewrite H. apply nth_In. lia.
Qed.

(** The header search returns the spec's Header Resolution Result. *)
Lemma find_header_row_spec g : spec_header_resolution g (find_header_row g).
Proof.
  unfold find_header_row.
  destruct (scan_header g (range (Nat.min 5 (List.length g)))) as [k|] eqn:E.
  - destruct (scan_header_some _ _ _ E) as (before & after & Er & Hk & Hb).
    destruct (range_split _ _ _ _ Er) as (Hlt & Hin).
    unfold spec_header_resolution. repeat split; auto.
  - unfold spec_header_resolution. intros j Hj.
    apply (scan_header_none _ _ E). unfold range. apply in_seq. lia.
Qed.

Lemma spec_header_resolution_unique g a b :
  spec_header_resolution g a -> spec_header_resolution g b -> a = b.
Proof.
  destruct a as [k|], b as [k'|]; cbn; auto.
  - intros (Hk & Hm & Hb) (Hk' & Hm' & Hb').
    destruct (Nat.lt_trichotomy k k') as [H|[H|H]]; [|congruence|].
    + rewrite (Hb' _ H) in Hm. discriminate.
    + rewrite (Hb _ H) in Hm'. discriminate.
  - intros (Hk & Hm & _) Hn. rewrite (Hn _ Hk) in Hm. discriminate.
  - intros Hn (Hk & Hm & _). rewrite (Hn _ Hk) in Hm. discriminate.
Qed.

Lemma load_excel_unfold g :
  load_excel g =
    dropna_all (match find_header_row g with
                | Some h => without_score_label_row (read_excel g h)
                | None => read_excel g 0
                end).
Proof. reflexivity. Qed.

(** C5.  When [sel] is the first row, among the first five, with a cell
    containing the identity marker (or "not found" when there is none),
    the loader detects exactly [sel]; the table is then read with that
    row as header, or with the first row as header when none was found. *)
Theorem header_detection (g : grid) (sel : option nat) :
  spec_header_resolution g sel ->
  find_header_row g = sel /\
  load_excel g =
    dropna_all (match sel with
                | Some k => without_score_label_row (read_excel g k)
                | None => read_excel g 0
                end).
Proof.
  intros Hsel.
  assert (E : find_header_row g = sel)
    by exact (spec_header_resolution_unique _ _ _ (find_header_row_spec g) Hsel).
  split; [exact E|]. rewrite load_excel_unfold, E. reflexivity.
Qed.

(** C4 (amended).  When a header row is detected and the row below it is
    a score-label row, that row is dropped: the data rows of the table are
    the remaining rows below the header without the fully missing ones,
    so their number is the raw count, less one, less the number of fully
    missing rows. *)
Theorem score_label_row_removed (g : grid) (h : nat) first rest :
  find_header_row g = Some h ->
  skipn (S h) g = first :: rest ->
  is_score_label_row first = true ->
  rows (load_excel g) = filter (fun row => negb (all_missing row)) rest /\
  (List.length (rows (load_excel g)) + List.length (filter all_missing rest) + 1
   = List.length (first :: rest))%nat.
Proof.
  intros Eh Erows Hlabel.
  assert (E : rows (load_excel g) = filter (fun row => negb (all_missing row)) rest).
  { rewrite load_excel_unfold, Eh. unfold without_score_label_row, read_excel.
    cbn [rows]. rewrite Erows, Hlabel. reflexivity. }
  split; [exact E|]. rewrite E. cbn [List.length].
  clear. induction rest as [|r rest IH]; [reflexivity|].
  cbn [filter]. destruct (all_missing r); cbn [negb List.length]; lia.
Qed.

End LoaderClaims.

Lemma header_detection_witness :
  spec_header_resolution titled_sheet (Some 1%nat) /\
  find_header_row titled_sheet = Some 1%nat /\
  load_excel titled_sheet =
    dropna_all (without_score_label_row (read_excel titled_sheet 1)).
Proof.
  assert (H : spec_header_resolution titled_sheet (Some 1%nat)).
  { split; [vm_compute; lia|]. split; [vm_compute; reflexivity|].
    intros j Hj. assert (j = 0)%nat as -> by lia. vm_compute. reflexivity. }
  split; [exact H|].
  exact (header_detection titled_sheet (Some 1%nat) H).
Defined.

Lemma score_label_row_removed_witness :
  find_header_row titled_sheet = Some 1%nat /\
  is_score_label_row (nth 2 titled_sheet []) = true /\
  rows (load_excel titled_sheet) =
    filter (fun row => negb (all_missing row)) (skipn 3 titled_sheet) /\
  (List.length (rows (load_excel titled_sheet))
   + List.length (filter all_missing (skipn 3 titled_sheet)) + 1
   = List.length (skipn 2 titled_sheet))%nat.
Proof.
  split; [vm_compute; reflexivity|].
  split; [vm_compute; reflexivity|].
  apply (score_label_row_removed titled_sheet 1 (nth 2 titled_sheet [])
           (skipn 3 titled_sheet)); vm_compute; reflexivity.
Defined.

(** C4 (counterexample).  Without a detected header the score-label row
    below the first row stays in the table; and with a detected header an
    empty data row makes the table shorter than "raw rows less one". *)
Lemma score_label_row_counterexample :
  (find_header_row anonymous_sheet = None /\
   is_score_label_row (nth 0 (spec_post_header_rows anonymous_sheet) []) = true /\
   In (nth 0 (spec_post_header_rows anonymous_sheet) []) (rows (load_excel anonymous_sheet)) /\
   List.length (rows (load_excel anonymous_sheet)) = 2%nat /\
   List.length (spec_post_header_rows anonymous_sheet) = 2%nat)
  /\
  (find_header_row gapped_sheet = Some 0%nat /\
   is_score_label_row (nth 0 (spec_post_header_rows gapped_sheet) []) = true /\
   List.length (rows (load_excel gapped_sheet)) = 1%nat /\
   List.length (spec_post_header_rows gapped_sheet) = 3%nat).
Proof.
  split.
  - split; [vm_compute; reflexivity|]. split; [vm_compute; reflexivity|].
    split; [vm_compute; left; reflexivity|]. split; vm_compute; reflexivity.
  - repeat split; vm_compute; reflexivity.
Qed.

(** * Properties of the classifier and the scorer *)

Section Classifier.
Context {RT : Runtime}.
Variable name_column : scalar.

Lemma classify_fold cols : forall q,
  lists_of (fold_left (classify_column name_column) cols q) =
    (all_question_columns q ++ filter (is_question_header name_column) cols,
     subjective_columns q ++ filter (goes_subjective name_column) cols,
     objective_columns q ++ filter (goes_objective name_column) cols).
Proof.
  unfold lists_of.
  induction cols as [|col cols IH]; intros q; cbn [fold_left filter].
  - now rewrite !app_nil_r.
  - rewrite IH. unfold classify_column, goes_subjective, goes_objective.
    destruct (is_question_header name_column col); cbn [andb].
    + destruct (is_subjective_header (py_str col)); cbn [orb negb andb].
      * cbn. now rewrite <- !app_assoc.
      * destruct (is_objective_header (py_str col)); cbn; now rewrite <- !app_assoc.
    + reflexivity.
Qed.

(** The three lists are the columns, in table order, picked by the head
    test and by the subjective / objective sub-test. *)
Lemma classify_columns_filter cols :
  lists_of (classify_columns name_column cols) =
    (filter (is_question_header name_column) cols,
     filter (goes_subjective name_column) cols,
     filter (goes_objective name_column) cols).
Proof. unfold classify_columns. now rewrite classify_fold. Qed.

(** No column is put in both the subjective and the objective list, and
    every question column is put in one of them. *)
Lemma subjective_objective_disjoint cols col :
  In col (subjective_columns (classify_columns name_column cols)) ->
  In col (objective_columns (classify_columns name_column cols)) -> False.
Proof.
  pose proof (classify_columns_filter cols) as E. unfold lists_of in E.
  injection E as _ Es Eo. rewrite Es, Eo, !filter_In.
  unfold goes_subjective, goes_objective. intros [_ H1] [_ H2].
  destruct (is_question_header name_column col),
    (is_subjective_header (py_str col)), (is_objective_header (py_str col));
    discriminate.
Qed.

Lemma question_column_has_kind cols col :
  In col (all_question_columns (classify_columns name_column cols)) ->
  In col (subjective_columns (classify_columns name_column cols)) \/
  In col (objective_columns (classify_columns name_column cols)).
Proof.
  pose proof (classify_columns_filter cols) as E. unfold lists_of in E.
  injection E as Ea Es Eo. rewrite Ea, Es, Eo, !filter_In.
  unfold goes_subjective, goes_objective. intros [Hin H].
  rewrite H. cbn [andb].
  destruct (is_subjective_header (py_str col)), (is_objective_header (py_str col));
    cbn; auto.
Qed.

End Classifier.

(** C3 (evaluation at the failing inputs).  With the headers
    [考号, 班级, 第1题, 第2题] the third column is chosen as identity column
    and is also the first subjective score column; with the headers
    [姓名/题号, 1, 2] the column holding the name marker is the identity
    column and, holding the question marker too, a subjective score
    column. *)
Theorem identity_column_also_scored :
  (find_name_column anonymous_headers = Ok (nth 2 anonymous_headers PyNone) /\
   lists_of (classify_columns (nth 2 anonymous_headers PyNone) anonymous_headers)
     = (skipn 2 anonymous_headers, skipn 2 anonymous_headers, []))
  /\
  (find_name_column shared_headers = Ok (nth 0 shared_headers PyNone) /\
   lists_of (classify_columns (nth 0 shared_headers PyNone) shared_headers)
     = (shared_headers, shared_headers, [])).
Proof. repeat split; vm_compute; reflexivity. Qed.

Section Scorer.
Context {RT : Runtime}.

Lemma str_eqb_refl s : str_eqb s s = true.
Proof. induction s as [|c s IH]; cbn; [reflexivity|]. now rewrite N.eqb_refl. Qed.

Lemma float_eqb_refl f : float_eqb f f = true.
Proof.
  destruct f as [s|s| |s m e]; cbn; try apply Bool.eqb_reflx; auto.
  now rewrite Bool.eqb_reflx, Pos.eqb_refl, Z.eqb_refl.
Qed.

Lemma scalar_eqb_refl a : scalar_eqb a a = true.
Proof.
  destruct a as [|b|[z|f]|s]; cbn.
  - reflexivity.
  - apply Bool.eqb_reflx.
  - apply Z.eqb_refl.
  - apply float_eqb_refl.
  - apply str_eqb_refl.
Qed.

Lemma column_index_In cols col :
  In col cols -> exists i, column_index cols col = Some i.
Proof.
  induction cols as [|c cols IH]; [intros []|].
  intros H. cbn [column_index]. destruct (scalar_eqb c col) eqn:E; [eauto|].
  destruct H as [<-|H]; [now rewrite scalar_eqb_refl in E|].
  destruct (IH H) as (i & ->). cbn. eauto.
Qed.

Lemma getcell_In df row col :
  In col (columns df) -> exists v, getcell df row col = Ok v /\ (v = NaN \/ In v row).
Proof.
  intros H. unfold getcell. destruct (column_index_In _ _ H) as (i & ->).
  exists (nth i row NaN). split; [reflexivity|].
  destruct (nth_in_or_default i row NaN); auto.
Qed.

Lemma index_In {A} (l : list A) i a : index l i = Ok a -> In a l.
Proof.
  unfold index. destruct (nth_error l i) eqn:E; [|discriminate].
  intros [= <-]. eapply nth_error_In; eauto.
Qed.

Lemma find_name_column_In cols col :
  find_name_column cols = Ok col -> In col cols.
Proof.
  unfold find_name_column. destruct (find is_name_header cols) eqn:E.
  - intros [= <-]. now apply find_some in E.
  - destruct (2 <? List.length cols)%nat; [apply index_In|].
    destruct (1 <? List.length cols)%nat; apply index_In.
Qed.

Lemma find_name_column_total cols :
  cols <> [] -> exists col, find_name_column cols = Ok col.
Proof.
  intros Hne. unfold find_name_column.
  destruct (find is_name_header cols); [eauto|].
  destruct cols as [|a [|b [|c cols]]]; [congruence| | |]; cbn; eauto.
Qed.

Lemma py_float_exn v e :
  py_float v = Raise e -> e = TypeError \/ e = ValueError \/ e = OverflowError.
Proof.
  destruct v as [|b|[z|f]|s]; cbn.
  - intros [= <-]; auto.
  - discriminate.
  - destruct (is_inf (float_of_Z z)); [intros [= <-]; auto|discriminate].
  - discriminate.
  - destruct (float_of_str s); [discriminate|intros [= <-]; auto].
Qed.

Lemma py_float_NaN : py_float NaN = Ok S754_nan.
Proof. reflexivity. Qed.

Lemma score_row_total df name_column col t row :
  In name_column (columns df) -> In col (columns df) ->
  (forall c, In c row -> py_float c <> Raise OverflowError) ->
  exists t', score_row df name_column col t row = Ok t'.
Proof.
  intros Hn Hc Hsafe. unfold score_row.
  destruct (getcell_In df row _ Hn) as (name & -> & _). cbn [rbind].
  destruct (isna name || str_eqb (strip (py_str name)) []); [eauto|].
  destruct (str_in (strip (py_str name)) HEADER_ECHOES); [eauto|].
  destruct (getcell_In df row _ Hc) as (score & -> & Hs). cbn [rbind].
  destruct (str_in (strip (py_str score)) UNANSWERED); [eauto|].
  destruct (py_float score) as [v|e] eqn:E.
  - destruct (is_zero v); eauto.
  - destruct (py_float_exn _ _ E) as [ -> | [ -> | -> ] ]; eauto.
    exfalso. destruct Hs as [->|Hs]; [now rewrite py_float_NaN in E|].
    exact (Hsafe _ Hs E).
Qed.

Lemma score_rows_total df name_column col rs : forall t,
  In name_column (columns df) -> In col (columns df) ->
  (forall row c, In row rs -> In c row -> py_float c <> Raise OverflowError) ->
  exists t', score_rows df name_column col t rs = Ok t'.
Proof.
  induction rs as [|row rs IH]; intros t Hn Hc Hsafe; cbn [score_rows]; [eauto|].
  destruct (score_row_total df name_column col t row Hn Hc) as (t1 & ->).
  - intros c Hin. apply (Hsafe row c); [now left|assumption].
  - cbn [rbind]. apply IH; auto. intros r c Hr. apply Hsafe. now right.
Qed.

Lemma score_column_total df name_column col :
  In name_column (columns df) -> In col (columns df) ->
  cells_in_float_range df ->
  exists s, score_column df name_column col = Ok s /\ column_name s = col.
Proof.
  intros Hn Hc Hsafe. unfold score_column.
  destruct (score_rows_total df name_column col (rows df) empty_tally Hn Hc Hsafe)
    as (t & ->).
  cbn [rbind]. eexists. split; reflexivity.
Qed.

Lemma score_columns_loop_total df name_column cols : forall stats0,
  In name_column (columns df) ->
  (forall e, In e cols -> In (snd e) (columns df)) ->
  cells_in_float_range df ->
  exists stats,
    score_columns_loop df name_column cols stats0 = Ok stats /\
    map fst stats = map fst stats0 ++ map fst cols /\
    map (fun e => column_name (snd e)) stats =
      map (fun e => column_name (snd e)) stats0 ++ map snd cols.
Proof.
  induction cols as [|[idx col] cols IH]; intros stats0 Hn Hc Hsafe.
  - exists stats0. cbn. now rewrite !app_nil_r.
  - cbn [score_columns_loop].
    destruct (score_column_total df name_column col Hn (Hc (idx, col) (or_introl eq_refl)) Hsafe)
      as (s & -> & Es).
    cbn [rbind].
    destruct (IH (stats0 ++ [(idx, s)]) Hn (fun e H => Hc e (or_intror H)) Hsafe)
      as (stats & -> & Ek & Ec).
    exists stats. split; [reflexivity|].
    rewrite Ek, Ec, !map_app. cbn [map fst snd]. rewrite Es, <- !app_assoc.
    split; reflexivity.
Qed.

Lemma enumerate_fst {A} (l : list A) : forall k : nat,
  map fst (enumerate l (Z.of_nat k)) = map Z.of_nat (seq k (List.length l)).
Proof.
  induction l as [|a l IH]; intros k; cbn [enumerate map List.length seq]; [reflexivity|].
  f_equal. rewrite <- IH. do 2 f_equal. lia.
Qed.

Lemma enumerate_snd {A} (l : list A) k : map snd (enumerate l k) = l.
Proof. revert k; induction l as [|a l IH]; intros k; cbn; [reflexivity|]. now rewrite IH. Qed.

Lemma In_enumerate {A} (l : list A) k e : In e (enumerate l k) -> In (snd e) l.
Proof. intros H. rewrite <- (enumerate_snd l k). now apply in_map. Qed.

Lemma select_score_columns_spec q :
  select_score_columns q =
    match subjective_columns q with
    | [] => all_question_columns q
    | _ :: _ => subjective_columns q
    end.
Proof. unfold select_score_columns. now destruct (subjective_columns q). Qed.

Lemma select_score_columns_incl name_column cols col :
  In col (select_score_columns (classify_columns name_column cols)) -> In col cols.
Proof.
  pose proof (classify_columns_filter name_column cols) as E. unfold lists_of in E.
  injection E as Ea Es _. rewrite select_score_columns_spec.
  destruct (subjective_columns (classify_columns name_column cols)) eqn:E'.
  - rewrite Ea, filter_In. tauto.
  - rewrite Es, filter_In. tauto.
Qed.

(** C7.  On a table with at least one column and cells within the float
    range, the analysis returns its statistics; the columns scored are
    the subjective columns when there are any, and all detected question
    columns otherwise; the records are keyed 1, 2, ... in the order of
    that list. *)
Theorem score_columns_and_numbering (df : DataFrame) :
  columns df <> [] ->
  cells_in_float_range df ->
  exists name_column stats,
    find_name_column (columns df) = Ok name_column /\
    analyze_questions df = Ok stats /\
    let q := classify_columns name_column (columns df) in
    let chosen := match subjective_columns q with
                  | [] => all_question_columns q
                  | _ :: _ => subjective_columns q
                  end in
    all_question_columns q = filter (is_question_header name_column) (columns df) /\
    map (fun e => column_name (snd e)) stats = chosen /\
    map fst stats = map Z.of_nat (seq 1 (List.length chosen)).
Proof.
  intros Hne Hsafe.
  destruct (find_name_column_total _ Hne) as (name_column & En).
  pose proof (find_name_column_In _ _ En) as Hin.
  set (q := classify_columns name_column (columns df)).
  destruct (score_columns_loop_total df name_column
              (enumerate (select_score_columns q) 1) [] Hin) as (stats & Es & Ek & Ec).
  - intros e He. apply In_enumerate in He.
    now apply (select_score_columns_incl name_column).
  - exact Hsafe.
  - exists name_column, stats. split; [exact En|].
    split; [unfold analyze_questions; rewrite En; exact Es|].
    cbn zeta. fold q. rewrite <- select_score_columns_spec.
    split.
    + pose proof (classify_columns_filter name_column (columns df)) as E.
      unfold lists_of in E. now injection E as Ea _ _.
    + rewrite Ec, Ek. cbn [map app]. rewrite enumerate_snd.
      split; [reflexivity|]. apply (enumerate_fst _ 1%nat).
Qed.

(** C6.  In a row that is not skipped and whose cell converts to a float,
    a zero appends the student's name to the wrong list and adds one to
    the wrong count; any other value adds one to the correct count and
    leaves the wrong list as it was. *)
Theorem zero_score_is_wrong (df : DataFrame) (name_column col : scalar)
    (t : tally) (row : list scalar) (name score : scalar) (score_val : float) :
  getcell df row name_column = Ok name ->
  named_row name ->
  getcell df row col = Ok score ->
  str_in (strip (py_str score)) UNANSWERED = false ->
  py_float score = Ok score_val ->
  exists t',
    score_row df name_column col t row = Ok t' /\
    if is_zero score_val then
      t_wrong_students t' = t_wrong_students t ++ [strip (py_str name)] /\
      t_wrong_count t' = t_wrong_count t + 1 /\
      t_correct_count t' = t_correct_count t
    else
      t_correct_count t' = t_correct_count t + 1 /\
      t_wrong_students t' = t_wrong_students t /\
      t_wrong_count t' = t_wrong_count t.
Proof.
  intros En (Hna & Hblank & Hecho) Es Hans Ef. unfold score_row.
  rewrite En. cbn [rbind]. rewrite Hna, Hblank. cbn [orb]. rewrite Hecho.
  rewrite Es. cbn [rbind]. rewrite Hans, Ef.
  destruct (is_zero score_val); eexists; (split; [reflexivity|]); cbn; auto.
Qed.

(** C8.  A row whose cell text, stripped, is one of [-], the empty
    string, [nan], [NaN], and a row whose cell does not convert to a float
    ([ValueError] or [TypeError]), leave the tally of the column as it
    was. *)
Theorem unanswered_and_non_numeric_excluded (df : DataFrame)
    (name_column col : scalar) (t : tally) (row : list scalar) (name score : scalar) :
  getcell df row name_column = Ok name ->
  getcell df row col = Ok score ->
  str_in (strip (py_str score)) UNANSWERED = true \/
  py_float score = Raise ValueError \/
  py_float score = Raise TypeError ->
  score_row df name_column col t row = Ok t.
Proof.
  intros En Es H. unfold score_row. rewrite En. cbn [rbind].
  destruct (isna name || str_eqb (strip (py_str name)) []); [reflexivity|].
  destruct (str_in (strip (py_str name)) HEADER_ECHOES); [reflexivity|].
  rewrite Es. cbn [rbind].
  destruct (str_in (strip (py_str score)) UNANSWERED); [reflexivity|].
  destruct H as [H|[E|E]]; [discriminate|rewrite E|rewrite E]; reflexivity.
Qed.

End Scorer.

(** * The scoring scenario, evaluated *)

Lemma scenario_cells_in_float_range : cells_in_float_range scenario_table.
Proof.
  intros row c Hr Hc. cbn in Hr.
  repeat (destruct Hr as [<-|Hr]; [cbn in Hc;
    repeat (destruct Hc as [<-|Hc]; [vm_compute; discriminate|]); destruct Hc|]).
  destruct Hr.
Qed.

(** Alice scored 2, Bob 0, Carol did not answer, Dave gave a letter:
    one correct, one wrong, a rate of 50.0, and Bob on the wrong list. *)
Example analyze_scenario :
  analyze_questions scenario_table =
    Ok [ (1, {| wrong_students := [lit "Bob"];
                correct_count := 1;
                wrong_count := 1;
                correct_rate := Float (float_of_Z 50);
                column_name := nth 1 (columns scenario_table) PyNone |}) ].
Proof. vm_compute. reflexivity. Qed.

Lemma score_columns_and_numbering_witness :
  columns scenario_table <> [] /\
  cells_in_float_range scenario_table /\
  exists name_column stats,
    find_name_column (columns scenario_table) = Ok name_column /\
    analyze_questions scenario_table = Ok stats /\
    let q := classify_columns name_column (columns scenario_table) in
    let chosen := match subjective_columns q with
                  | [] => all_question_columns q
                  | _ :: _ => subjective_columns q
                  end in
    all_question_columns q
      = filter (is_question_header name_column) (columns scenario_table) /\
    map (fun e => column_name (snd e)) stats = chosen /\
    map fst stats = map Z.of_nat (seq 1 (List.length chosen)).
Proof.
  split; [discriminate|].
  split; [exact scenario_cells_in_float_range|].
  apply (score_columns_and_numbering scenario_table).
  - discriminate.
  - exact scenario_cells_in_float_range.
Defined.

Lemma zero_score_is_wrong_witness :
  let name_column := nth 0 (columns scenario_table) PyNone in
  let col := nth 1 (columns scenario_table) PyNone in
  let bob := nth 1 (rows scenario_table) [] in
  getcell scenario_table bob name_column = Ok (text "Bob") /\
  named_row (text "Bob") /\
  getcell scenario_table bob col = Ok (whole 0) /\
  str_in (strip (py_str (whole 0))) UNANSWERED = false /\
  py_float (whole 0) = Ok (S754_zero false) /\
  exists t',
    score_row scenario_table name_column col empty_tally bob = Ok t' /\
    t_wrong_students t' = [strip (py_str (text "Bob"))] /\
    t_wrong_count t' = 1 /\
    t_correct_count t' = 0.
Proof.
  cbv zeta.
  assert (H1 : getcell scenario_table (nth 1 (rows scenario_table) [])
                 (nth 0 (columns scenario_table) PyNone) = Ok (text "Bob"))
    by (vm_compute; reflexivity).
  assert (H2 : named_row (text "Bob"))
    by (repeat split; vm_compute; reflexivity).
  assert (H3 : getcell scenario_table (nth 1 (rows scenario_table) [])
                 (nth 1 (columns scenario_table) PyNone) = Ok (whole 0))
    by (vm_compute; reflexivity).
  assert (H4 : str_in (strip (py_str (whole 0))) UNANSWERED = false)
    by (vm_compute; reflexivity).
  assert (H5 : py_float (whole 0) = Ok (S754_zero false))
    by (vm_compute; reflexivity).
  repeat (split; [assumption|]).
  exact (zero_score_is_wrong scenario_table _ _ empty_tally _ _ _ _ H1 H2 H3 H4 H5).
Defined.

Lemma unanswered_and_non_numeric_excluded_witness :
  let name_column := nth 0 (columns scenario_table) PyNone in
  let col := nth 1 (columns scenario_table) PyNone in
  let dave := nth 3 (rows scenario_table) [] in
  getcell scenario_table dave name_column = Ok (text "Dave") /\
  getcell scenario_table dave col = Ok (text "A") /\
  py_float (text "A") = Raise ValueError /\
  score_row scenario_table name_column col empty_tally dave = Ok empty_tally.
Proof.
  cbv zeta.
  assert (H1 : getcell scenario_table (nth 3 (rows scenario_table) [])
                 (nth 0 (columns scenario_table) PyNone) = Ok (text "Dave"))
    by (vm_compute; reflexivity).
  assert (H2 : getcell scenario_table (nth 3 (rows scenario_table) [])
                 (nth 1 (columns scenario_table) PyNone) = Ok (text "A"))
    by (vm_compute; reflexivity).
  assert (H3 : py_float (text "A") = Raise ValueError)
    by (vm_compute; reflexivity).
  repeat (split; [assumption|]).
  exact (unanswered_and_non_numeric_excluded scenario_table _ _ empty_tally _ _ _
           H1 H2 (or_intror (or_introl H3))).
Defined.

(** * Further properties of the region store *)

Section StoreInvariants.

Lemma handle_scale_factor w e : scale_factor (handle w e) = scale_factor w.
Proof.
  destruct e as [b pos|pos|b pos| |]; cbn [handle].
  - unfold mousePressEvent. now destruct (is_left b).
  - unfold mouseMoveEvent. now destruct (is_drawing w).
  - unfold mouseReleaseEvent. destruct (is_left b && is_drawing w); [|reflexivity].
    cbn [start_point set_points]. destruct (start_point w); [|reflexivity].
    now destruct (admissible _).
  - unfold clear_last. now destruct (rectangles w).
  - reflexivity.
Qed.

Lemma numbered_snd rs : forall k : nat,
  map snd (numbered rs (Z.of_nat k)) =
    map (fun i => Atom (Num (Int (Z.of_nat i)))) (seq k (List.length rs)).
Proof.
  induction rs as [|r rs IH]; intros k; [reflexivity|].
  rewrite numbered_cons. cbn [map snd List.length seq]. f_equal.
  replace (Z.of_nat k + 1) with (Z.of_nat (S k)) by lia. apply IH.
Qed.

(** X1.  In every store reached by an operator session the question
    numbers are 1, 2, ..., n in list order, the counter is n + 1, and the
    scale factor is the one the widget was created with. *)
Theorem session_numbering sf w :
  reachable sf w ->
  map snd (rectangles w) =
    map (fun i => Atom (Num (Int (Z.of_nat i)))) (seq 1 (List.length (rectangles w))) /\
  current_question_number w = Int (Z.of_nat (List.length (rectangles w)) + 1) /\
  scale_factor w = sf.
Proof.
  intros Hreach.
  destruct (session_inv_reachable sf w Hreach) as (rs & Erect & Ecnt & _).
  rewrite Erect, numbered_length. split; [apply (numbered_snd rs 1)|].
  split; [rewrite Ecnt; f_equal; lia|].
  clear rs Erect Ecnt. induction Hreach as [|w e Hreach IH He]; [reflexivity|].
  now rewrite handle_scale_factor.
Qed.

(** X2.  Every region of a store reached by an operator session is wider
    and taller than 10 pixels. *)
Theorem session_regions_exceed_minimum sf w :
  reachable sf w ->
  Forall (fun e => 10 < QRect_width (fst e) /\ 10 < QRect_height (fst e)) (rectangles w).
Proof.
  intros Hreach.
  destruct (session_inv_reachable sf w Hreach) as (rs & Erect & _ & _ & Hadm & _).
  rewrite Erect. clear Erect. generalize 1.
  induction Hadm as [|r rs Hr Hrs IH]; intros k; [constructor|].
  rewrite numbered_cons. constructor; [|apply IH].
  cbn [fst]. unfold admissible in Hr. apply andb_true_iff in Hr.
  rewrite !Z.ltb_lt in Hr. exact Hr.
Qed.

Lemma wrap_small z : Z.abs z <= 2147483647 -> wrap z = z.
Proof.
  intros H. apply wrap_id, in_int_iff. unfold INT_MIN, INT_MAX.
  change (2 ^ 31) with 2147483648. lia.
Qed.

Lemma admissible_drag p q :
  on_screen p -> on_screen q ->
  admissible (QRect_normalized (QRect_of_points p q)) = long_drag p q.
Proof.
  intros (Hpx & Hpy) (Hqx & Hqy).
  change (2 ^ 29) with 536870912 in *.
  unfold admissible, long_drag, QRect_normalized, QRect_of_points,
    QRect_width, QRect_height.
  cbn [rx1 ry1 rx2 ry2].
  rewrite !(wrap_small (_ - 1)) by lia.
  destruct (Z.ltb_spec (px q) (px p - 1)), (Z.ltb_spec (py q) (py p - 1));
    cbn [rx1 ry1 rx2 ry2]; rewrite !wrap_small by lia;
    f_equal;
    match goal with
    | |- (10 <? ?a) = (10 <=? ?b) =>
        destruct (Z.ltb_spec 10 a), (Z.leb_spec 10 b); try reflexivity; lia
    end.
Qed.

Lemma long_drag_appends w p q :
  on_screen p -> on_screen q -> long_drag p q = true ->
  let w' := mouseReleaseEvent (mousePressEvent w LeftButton p) LeftButton q in
  rectangles w' =
    rectangles w ++ [(QRect_normalized (QRect_of_points p q),
                      Atom (Num (current_question_number w)))] /\
  current_question_number w' = num_succ (current_question_number w).
Proof.
  intros Hp Hq Hlong. cbv zeta.
  unfold mouseReleaseEvent, mousePressEvent.
  cbn [is_left is_drawing set_points start_point andb].
  rewrite (admissible_drag p q Hp Hq), Hlong. cbn. auto.
Qed.

(** X3.  A press at [p] followed by a release at [q] adds a region, tagged
    with the counter, exactly when the pointer moved at least 10 pixels
    both horizontally and vertically (in whichever direction); otherwise
    list and counter stay as they were.  Either way drawing ends. *)
Theorem drag_creates_region w p q :
  on_screen p -> on_screen q ->
  let w' := mouseReleaseEvent (mousePressEvent w LeftButton p) LeftButton q in
  (if long_drag p q then
     rectangles w' =
       rectangles w ++ [(QRect_normalized (QRect_of_points p q),
                         Atom (Num (current_question_number w)))] /\
     current_question_number w' = num_succ (current_question_number w)
   else
     rectangles w' = rectangles w /\
     current_question_number w' = current_question_number w) /\
  is_drawing w' = false /\ start_point w' = None /\ end_point w' = None.
Proof.
  intros Hp Hq. cbv zeta.
  unfold mouseReleaseEvent, mousePressEvent.
  cbn [is_left is_drawing set_points start_point andb].
  rewrite (admissible_drag p q Hp Hq).
  destruct (long_drag p q); cbn; auto.
Qed.

(** X4.  Undoing right after a drag that added a region gives back the
    list and the counter the store had before the drag, the counter being
    an integer. *)
Theorem undo_after_drag w p q z :
  on_screen p -> on_screen q ->
  long_drag p q = true ->
  current_question_number w = Int z ->
  let w' := clear_last (mouseReleaseEvent (mousePressEvent w LeftButton p) LeftButton q) in
  rectangles w' = rectangles w /\ current_question_number w' = Int z.
Proof.
  intros Hp Hq Hlong Hz. cbv zeta.
  destruct (long_drag_appends w p q Hp Hq Hlong) as (Er & Ec).
  unfold clear_last. rewrite Er.
  destruct (rectangles w ++ _) as [|e l] eqn:E.
  - destruct (rectangles w); discriminate.
  - rewrite <- E. cbn [rectangles current_question_number set_store].
    unfold pop. rewrite removelast_last. split; [reflexivity|].
    rewrite Ec, Hz. cbn [num_succ num_pred]. f_equal. lia.
Qed.

End StoreInvariants.

(** * Further properties of loading and saving regions *)

Section LoadFacts.
Context {RT : Runtime}.

Lemma set_rectangles_self w : set_rectangles w (rectangles w) = w.
Proof. now destruct w. Qed.

(** What the loading loop does: it appends one entry per record it gets
    through, whatever the store held, and accumulates their maximum. *)
Lemma load_loop_effect items : forall m w w' r,
  load_loop items m w = (w', r) ->
  exists new,
    w' = set_rectangles w (rectangles w ++ new) /\
    (forall w2, load_loop items m w2 = (set_rectangles w2 (rectangles w2 ++ new), r)) /\
    match r with
    | Ok m' => List.length new = List.length items /\ max_qnum_from m new = Ok m'
    | Raise _ => True
    end.
Proof.
  induction items as [|item rest IH]; intros m w w' r.
  - cbn. intros [= <- <-]. exists []. rewrite app_nil_r, set_rectangles_self.
    split; [reflexivity|]. split; [|split; reflexivity].
    intros w2. now rewrite app_nil_r, set_rectangles_self.
  - cbn [load_loop]. unfold bind at 1. unfold lift at 1.
    match goal with |- context [rbind ?a ?k] => destruct (rbind a k) as [rect|e] end.
    2:{ intros [= <- <-]. exists []. rewrite app_nil_r, set_rectangles_self.
        split; [reflexivity|]. split; [|exact I].
        intros w2. unfold bind at 1. unfold lift at 1.
        now rewrite app_nil_r, set_rectangles_self. }
    unfold bind at 1. unfold lift at 1.
    destruct (getitem item REC_QNUM) as [qnum|e].
    2:{ intros [= <- <-]. exists []. rewrite app_nil_r, set_rectangles_self.
        split; [reflexivity|]. split; [|exact I].
        intros w2. unfold bind at 1. unfold lift at 1.
        unfold bind at 1. unfold lift at 1.
        now rewrite app_nil_r, set_rectangles_self. }
    unfold bind at 1. unfold modify at 1.
    unfold bind at 1. unfold lift at 1.
    destruct (py_max m qnum) as [m'|e] eqn:Em.
    2:{ intros [= <- <-]. exists [(rect, qnum)].
        split; [reflexivity|]. split; [|exact I].
        intros w2. unfold bind at 1. unfold lift at 1.
        unfold bind at 1. unfold lift at 1.
        unfold bind at 1. unfold modify at 1.
        unfold bind at 1. unfold lift at 1. now rewrite Em. }
    intros H. destruct (IH _ _ _ _ H) as (new & -> & Hany & Hr).
    exists ((rect, qnum) :: new).
    split; [rewrite set_rectangles_twice; cbn [rectangles set_rectangles set_store];
            now rewrite <- app_assoc|].
    split.
    + intros w2. unfold bind at 1. unfold lift at 1.
      unfold bind at 1. unfold lift at 1.
      unfold bind at 1. unfold modify at 1.
      unfold bind at 1. unfold lift at 1. rewrite Em, Hany.
      rewrite set_rectangles_twice. cbn [rectangles set_rectangles set_store].
      now rewrite <- app_assoc.
    + destruct r as [m''|e]; [|exact I]. destruct Hr as (Hlen & Hmax).
      split; [cbn; now rewrite Hlen|]. cbn [max_qnum_from]. now rewrite Em.
Qed.

Lemma load_success w config w' :
  load_regions_config w (Ok config) = (w', true) ->
  exists items new m,
    iter_items config = Ok items /\
    List.length new = List.length items /\
    max_qnum_from (Int 0) new = Ok m /\
    forall w2, load_regions_config w2 (Ok config) = (set_store w2 new (num_succ m), true).
Proof.
  unfold load_regions_config at 1. unfold load_try.
  unfold bind at 1. unfold lift at 1.
  unfold bind at 1. unfold modify at 1.
  unfold bind at 1. unfold lift at 1.
  destruct (iter_items config) as [items|e] eqn:Ei; [|intros [= _ ?]; discriminate].
  unfold bind at 1.
  destruct (load_loop items (Int 0) (set_rectangles w [])) as [w1 [m|e]] eqn:El;
    [|intros [= _ ?]; discriminate].
  intros _. destruct (load_loop_effect _ _ _ _ _ El) as (new & _ & Hany & Hlen & Hmax).
  exists items, new, m. repeat split; auto.
  intros w2. unfold load_regions_config, load_try.
  unfold bind at 1. unfold lift at 1.
  unfold bind at 1. unfold modify at 1.
  unfold bind at 1. unfold lift at 1. rewrite Ei.
  unfold bind at 1. rewrite Hany.
  unfold bind, modify, ret. reflexivity.
Qed.

(** X5.  A successful load replaces the store: the new list has one
    region per record of the file and does not depend on what the store
    held before; the counter becomes one more than the maximum of the
    loaded question numbers (counted from 0); nothing else of the widget
    changes. *)
Theorem load_replaces_store w config w' :
  load_regions_config w (Ok config) = (w', true) ->
  exists items m,
    iter_items config = Ok items /\
    List.length (rectangles w') = List.length items /\
    max_qnum_from (Int 0) (rectangles w') = Ok m /\
    w' = set_store w (rectangles w') (num_succ m) /\
    forall w2, load_regions_config w2 (Ok config)
               = (set_store w2 (rectangles w') (num_succ m), true).
Proof.
  intros H. destruct (load_success w config w' H) as (items & new & m & Ei & Hlen & Hmax & Hany).
  rewrite Hany in H. injection H as <-.
  exists items, m. cbn [rectangles set_store]. auto.
Qed.

Lemma max_qnum_int l : forall m r,
  Forall int_key l ->
  max_qnum_from (Int m) l = Ok r ->
  exists m', r = Int m' /\ m <= m' /\ Forall (fun e => key_of e <= m') l.
Proof.
  induction l as [|[rect qnum] l IH]; intros m r Hk.
  - cbn. intros [= <-]. exists m. repeat split; [lia|constructor].
  - inversion Hk as [|? ? (z & Ez) Hl]; subst. cbn [snd] in Ez. subst qnum.
    cbn [max_qnum_from]. unfold py_max, num_gt. cbn [as_num num_compare rbind].
    destruct (Z.compare_spec z m) as [E|E|E]; intros H;
      destruct (IH _ _ Hl H) as (m' & -> & Hle & Hall);
      exists m'; (split; [reflexivity|]); (split; [lia|]);
      constructor; auto; unfold key_of; cbn; lia.
Qed.

(** X6.  After a successful load whose question numbers are integers, the
    counter is an integer, at least 1, greater than every question number
    in the store: the next region drawn gets a number no loaded region
    has. *)
Theorem loaded_counter_is_fresh w config w' :
  load_regions_config w (Ok config) = (w', true) ->
  Forall int_key (rectangles w') ->
  exists c,
    current_question_number w' = Int c /\ 1 <= c /\
    Forall (fun e => key_of e < c) (rectangles w').
Proof.
  intros H Hk. destruct (load_success w config w' H) as (items & new & m & _ & _ & Hmax & Hany).
  rewrite Hany in H. injection H as <-. cbn [rectangles set_store] in *.
  destruct (max_qnum_int _ _ _ Hk Hmax) as (m' & -> & Hle & Hall).
  exists (m' + 1). cbn. repeat split; [lia|].
  eapply Forall_impl; [|exact Hall]. cbn beta. intros; lia.
Qed.

(** X7.  A load that reports failure changes neither the counter nor the
    scale factor, whatever the file holds. *)
Theorem failed_load_keeps_counter w file w' :
  load_regions_config w file = (w', false) ->
  current_question_number w' = current_question_number w /\
  scale_factor w' = scale_factor w.
Proof.
  intros H. split; [exact (load_failure_keeps_counter w file w' H)|].
  revert H. unfold load_regions_config, load_try.
  unfold bind at 1. unfold lift at 1.
  destruct file as [config|e]; [|intros [= <-]; reflexivity].
  unfold bind at 1. unfold modify at 1.
  unfold bind at 1. unfold lift at 1.
  destruct (iter_items config) as [items|e]; [|intros [= <-]; reflexivity].
  unfold bind at 1.
  destruct (load_loop items (Int 0) (set_rectangles w [])) as [w1 [m|e]] eqn:E.
  - unfold bind, modify, ret. intros H. inversion H.
  - intros [= <-]. now apply load_loop_counter in E.
Qed.

Lemma py_max_numeric m qnum : as_num qnum <> None -> exists m', py_max m qnum = Ok m'.
Proof. unfold py_max. destruct (as_num qnum); [eauto|congruence]. Qed.

(** The loading loop run on the records written for any entries with
    sound rectangles and numeric question numbers. *)
Lemma load_loop_saved l : forall m w,
  Forall (fun e => rect_ok (fst e)) l -> Forall numeric_key l ->
  exists m',
    max_qnum_from m l = Ok m' /\
    load_loop (map region_record l) m w = (set_rectangles w (rectangles w ++ l), Ok m').
Proof.
  induction l as [|[r q] l IH]; intros m w Hok Hnum.
  - exists m. cbn. now rewrite app_nil_r, set_rectangles_self.
  - inversion Hok as [|? ? Hr Hok']; inversion Hnum as [|? ? Hq Hnum']; subst.
    cbn [fst] in Hr. unfold numeric_key in Hq. cbn [snd] in Hq.
    destruct (py_max_numeric m q Hq) as (m1 & Em).
    destruct (IH m1 (set_rectangles w (rectangles w ++ [(r, q)])) Hok' Hnum')
      as (m' & Emax & Eloop).
    exists m'. split; [cbn [max_qnum_from]; now rewrite Em|].
    cbn [map load_loop].
    destruct (int_field_record r q) as (Ex & Ey & Ew & Eh & Eq).
    unfold bind at 1. unfold lift at 1.
    rewrite Ex, Ey, Ew, Eh. cbn [rbind]. rewrite (QRect_new_accessors r Hr).
    unfold bind at 1. unfold lift at 1. rewrite Eq.
    unfold bind at 1. unfold modify at 1.
    unfold bind at 1. unfold lift at 1. rewrite Em, Eloop.
    rewrite set_rectangles_twice. cbn [rectangles set_rectangles set_store].
    now rewrite <- app_assoc.
Qed.

Lemma QRect_new_ok x y w h r : QRect_new x y w h = Ok r -> rect_ok r.
Proof.
  unfold QRect_new, c_int.
  destruct (in_int x) eqn:Hx; [|discriminate]. cbn [rbind].
  destruct (in_int y) eqn:Hy; [|discriminate]. cbn [rbind].
  destruct (in_int w); [|discriminate]. cbn [rbind].
  destruct (in_int h); [|discriminate]. cbn [rbind].
  intros [= <-]. unfold rect_ok, QRect_xywh. cbn. auto using wrap_in_int.
Qed.

Lemma load_loop_rect_ok items : forall m w w' r,
  load_loop items m w = (w', r) ->
  Forall (fun e => rect_ok (fst e)) (rectangles w) ->
  Forall (fun e => rect_ok (fst e)) (rectangles w').
Proof.
  induction items as [|item rest IH]; intros m w w' r.
  - cbn. now intros [= <- _].
  - cbn [load_loop]. unfold bind at 1. unfold lift at 1.
    match goal with |- context [rbind ?a ?k] => destruct (rbind a k) as [rect|e] eqn:Er end;
      [|now intros [= <- _]].
    assert (Hrect : rect_ok rect).
    { revert Er. destruct (int_field item REC_X); [|discriminate]. cbn [rbind].
      destruct (int_field item REC_Y); [|discriminate]. cbn [rbind].
      destruct (int_field item REC_WIDTH); [|discriminate]. cbn [rbind].
      destruct (int_field item REC_HEIGHT); [|discriminate]. cbn [rbind].
      apply QRect_new_ok. }
    unfold bind at 1. unfold lift at 1.
    destruct (getitem item REC_QNUM) as [qnum|e]; [|now intros [= <- _]].
    unfold bind at 1. unfold modify at 1.
    unfold bind at 1. unfold lift at 1.
    destruct (py_max m qnum) as [m'|e].
    + intros H Hw. apply (IH _ _ _ _ H). cbn.
      apply Forall_app. split; [assumption|]. now constructor.
    + intros [= <- _] Hw. cbn. apply Forall_app. split; [assumption|]. now constructor.
Qed.

Lemma load_rect_ok w file :
  Forall (fun e => rect_ok (fst e)) (rectangles w) ->
  Forall (fun e => rect_ok (fst e)) (rectangles (fst (load_regions_config w file))).
Proof.
  intros Hw. unfold load_regions_config, load_try.
  unfold bind at 1. unfold lift at 1.
  destruct file as [config|e]; [|exact Hw].
  unfold bind at 1. unfold modify at 1.
  unfold bind at 1. unfold lift at 1.
  destruct (iter_items config) as [items|e]; [|constructor].
  unfold bind at 1.
  destruct (load_loop items (Int 0) (set_rectangles w [])) as [w1 [m|e]] eqn:E;
    apply load_loop_rect_ok in E; try constructor; exact E.
Qed.

(** Every rectangle of a store reached by events and loads has C [int]
    corners, and so has the pending start point. *)
Lemma operated_rect_ok sf w :
  operated sf w ->
  Forall (fun e => rect_ok (fst e)) (rectangles w) /\
  (forall p, start_point w = Some p -> point_ok p).
Proof.
  induction 1 as [|w e Hop (Hr & Hs) He|w file Hop (Hr & Hs)].
  - split; [constructor|discriminate].
  - destruct e as [b pos|pos|b pos| |]; cbn [handle event_ok] in *.
    + unfold mousePressEvent. destruct (is_left b); [|auto].
      split; [exact Hr|]. cbn. now intros p [= <-].
    + unfold mouseMoveEvent. destruct (is_drawing w); auto.
    + unfold mouseReleaseEvent. destruct (is_left b && is_drawing w); [|auto].
      cbn [start_point set_points].
      destruct (start_point w) as [start|] eqn:Es; [|split; [exact Hr|discriminate]].
      destruct (admissible _); (split; [|discriminate]); cbn; [|exact Hr].
      apply Forall_app. split; [exact Hr|]. constructor; [|constructor].
      apply normalized_ok; auto.
    + unfold clear_last. destruct (rectangles w) eqn:E; [rewrite E; auto|].
      split; [|exact Hs]. cbn [rectangles set_store]. unfold pop.
      apply Forall_removelast. exact Hr.
    + split; [constructor|exact Hs].
  - split; [now apply load_rect_ok|].
    unfold load_regions_config, load_try.
    unfold bind at 1. unfold lift at 1.
    destruct file as [config|e]; [|exact Hs].
    unfold bind at 1. unfold modify at 1.
    unfold bind at 1. unfold lift at 1.
    destruct (iter_items config) as [items|e]; [|exact Hs].
    unfold bind at 1.
    destruct (load_loop items (Int 0) (set_rectangles w [])) as [w1 [m|e]] eqn:E;
      destruct (load_loop_effect _ _ _ _ _ E) as (new & -> & _); exact Hs.
Qed.

(** X8.  For every store reached by events and loads whose question
    numbers are numbers, loading the saved document restores the list of
    regions exactly, and sets the counter to one more than the maximum
    question number. *)
Theorem saved_regions_reload sf (w w0 : ImageCropWidget) :
  operated sf w ->
  Forall numeric_key (rectangles w) ->
  exists m,
    max_qnum_from (Int 0) (rectangles w) = Ok m /\
    load_regions_config w0 (Ok (save_regions_config w))
      = (set_store w0 (rectangles w) (num_succ m), true).
Proof.
  intros Hop Hnum. destruct (operated_rect_ok sf w Hop) as (Hok & _).
  destruct (load_loop_saved (rectangles w) (Int 0) (set_rectangles w0 []) Hok Hnum)
    as (m & Emax & Eloop).
  exists m. split; [exact Emax|].
  unfold load_regions_config, load_try, save_regions_config.
  unfold bind at 1. unfold lift at 1.
  unfold bind at 1. unfold modify at 1.
  unfold bind at 1. unfold lift at 1. cbn [iter_items].
  unfold bind at 1. rewrite Eloop.
  unfold bind, modify, ret. reflexivity.
Qed.

End LoadFacts.

(** * Further properties of the cropper *)

Section CropOrder.

Lemma key_lt_int a b : key_lt (num_atom a) (num_atom b) = Ok (a <? b).
Proof.
  unfold key_lt, num_lt. cbn. unfold Z.ltb. now destruct (a ?= b).
Qed.

Lemma insert_int_sorted z rect : forall (zs : list Z) (l : list (QRect * json)),
  map snd l = map num_atom zs ->
  StronglySorted Z.le zs ->
  exists zs' l',
    insert_by_key (rect, num_atom z) l = Ok l' /\
    map snd l' = map num_atom zs' /\
    StronglySorted Z.le zs' /\
    Permutation (z :: zs) zs' /\
    (forall a, Forall (Z.le a) zs -> a <= z -> Forall (Z.le a) zs').
Proof.
  induction zs as [|y zs IH]; intros l El Hs.
  - destruct l; [|discriminate]. exists [z], [(rect, num_atom z)].
    split; [reflexivity|]. split; [reflexivity|].
    split; [repeat constructor|]. split; [apply Permutation_refl|].
    intros a _ Ha. now constructor.
  - destruct l as [|[ry qy] l]; [discriminate|]. cbn [map snd] in El.
    injection El as -> El. cbn [insert_by_key snd]. rewrite key_lt_int. cbn [rbind].
    inversion Hs as [|? ? Hs' Hall]; subst.
    destruct (Z.ltb_spec y z) as [Hlt|Hge].
    + destruct (IH l El Hs') as (zs' & l' & -> & El' & Hs'' & Hp & Hlow). cbn [rbind].
      exists (y :: zs'), ((ry, num_atom y) :: l').
      split; [reflexivity|]. split; [cbn; now rewrite El'|].
      split; [constructor; [assumption|apply Hlow; [assumption|lia]]|].
      split; [eapply perm_trans; [apply perm_swap|now apply perm_skip]|].
      intros a Ha Haz. inversion Ha; subst. constructor; [assumption|].
      apply Hlow; assumption.
    + exists (z :: y :: zs), ((rect, num_atom z) :: (ry, num_atom y) :: l).
      split; [reflexivity|]. split; [cbn; now rewrite El|].
      split.
      * constructor; [assumption|]. constructor; [assumption|].
        eapply Forall_impl; [|exact Hall]. cbn beta. intros; lia.
      * split; [apply Permutation_refl|]. intros a Ha Haz. now constructor.
Qed.

Lemma sorted_int_keys : forall (l : list (QRect * json)) (zs : list Z),
  map snd l = map num_atom zs ->
  exists zs' l',
    sorted_by_qnum l = Ok l' /\
    map snd l' = map num_atom zs' /\
    StronglySorted Z.le zs' /\
    Permutation zs zs'.
Proof.
  induction l as [|[rect q] l IH]; intros zs E.
  - destruct zs; [|discriminate]. exists [], []. repeat split; constructor.
  - destruct zs as [|z zs]; [discriminate|]. cbn [map snd] in E. injection E as -> E.
    destruct (IH zs E) as (zs1 & l1 & Es & E1 & Hs1 & Hp1).
    cbn [sorted_by_qnum]. rewrite Es. cbn [rbind].
    destruct (insert_int_sorted z rect zs1 l1 E1 Hs1) as (zs' & l' & -> & E' & Hs' & Hp' & _).
    exists zs', l'. repeat split; auto.
    eapply perm_trans; [apply perm_skip; exact Hp1|exact Hp'].
Qed.

Lemma crop_all_keys sf : forall l regions,
  crop_all sf l = Ok regions -> map fst regions = map snd l.
Proof.
  induction l as [|[rect qnum] l IH]; intros regions.
  - cbn. now intros [= <-].
  - cbn [crop_all]. destruct (crop_box sf rect) as [b|]; [|discriminate]. cbn [rbind].
    destruct (Image_crop b); [|discriminate]. cbn [rbind].
    destruct (crop_all sf l) as [rest|]; [|discriminate]. cbn [rbind].
    intros [= <-]. cbn. f_equal. now apply IH.
Qed.

(** X9.  When the question numbers of the store are integers, the regions
    [get_cropped_regions] returns come in ascending question-number
    order, whatever the order they were stored in, and carry the same
    numbers. *)
Theorem regions_in_ascending_order (w : ImageCropWidget) regions (zs : list Z) :
  map snd (rectangles w) = map num_atom zs ->
  get_cropped_regions w = Ok regions ->
  exists sorted_zs,
    map fst regions = map num_atom sorted_zs /\
    StronglySorted Z.le sorted_zs /\
    Permutation zs sorted_zs.
Proof.
  intros E. unfold get_cropped_regions.
  destruct (sorted_int_keys _ _ E) as (zs' & l' & -> & E' & Hs & Hp). cbn [rbind].
  intros Hc. exists zs'. rewrite (crop_all_keys _ _ _ Hc), E'. auto.
Qed.

Lemma sorted_numbered rs : forall k, sorted_by_qnum (numbered rs k) = Ok (numbered rs k).
Proof.
  induction rs as [|r rs IH]; intros k; [reflexivity|].
  rewrite numbered_cons. cbn [sorted_by_qnum]. rewrite IH. cbn [rbind].
  destruct rs as [|r' rs]; [reflexivity|].
  rewrite numbered_cons. cbn [insert_by_key snd].
  change (Atom (Num (Int (k + 1)))) with (num_atom (k + 1)).
  change (Atom (Num (Int k))) with (num_atom k).
  rewrite key_lt_int. cbn [rbind].
  destruct (Z.ltb_spec (k + 1) k); [lia|reflexivity].
Qed.

Lemma crop_box_corners k r :
  0 <= k <= 64 -> rect_ok r -> crop_box (pow2_scale k) r = Ok (scaled_box k r).
Proof.
  intros Hk (Hx1 & Hy1 & Hx2 & Hy2). unfold crop_box, scaled_box.
  unfold QRect_x, QRect_y, QRect_right, QRect_bottom.
  rewrite !to_original_pow2 by assumption. reflexivity.
Qed.

Lemma crop_all_pow2 k l :
  0 <= k <= 64 -> Forall (fun e => rect_ok (fst e)) l ->
  Forall (fun e => croppable (scaled_box k (fst e))) l ->
  crop_all (pow2_scale k) l = Ok (map (fun e => (snd e, scaled_box k (fst e))) l).
Proof.
  intros Hk. induction 1 as [|[rect qnum] l Hr Hl IH]; [reflexivity|].
  intros Hc. inversion Hc as [|? ? Hc1 Hc2]; subst. cbn [fst] in Hc1.
  cbn [crop_all fst snd map]. rewrite (crop_box_corners k rect Hk Hr). cbn [rbind].
  rewrite (Image_crop_croppable _ Hc1), (IH Hc2). reflexivity.
Qed.

Lemma crop_all_pow2_inv k l :
  0 <= k <= 64 -> Forall (fun e => rect_ok (fst e)) l ->
  forall regions, crop_all (pow2_scale k) l = Ok regions ->
  Forall (fun e => croppable (scaled_box k (fst e))) l.
Proof.
  intros Hk. induction 1 as [|[rect qnum] l Hr Hl IH]; [constructor|].
  intros regions. cbn [crop_all fst]. rewrite (crop_box_corners k rect Hk Hr).
  cbn [rbind].
  destruct (Image_crop (scaled_box k rect)) as [b|] eqn:Ec; [|discriminate].
  cbn [rbind]. destruct (crop_all (pow2_scale k) l) as [rest|]; [|discriminate].
  intros _. constructor.
  - cbn [fst]. now apply Image_crop_inv in Ec.
  - now apply (IH rest).
Qed.

Lemma reachable_scale_factor sf w : reachable sf w -> scale_factor w = sf.
Proof.
  induction 1 as [|w e Hreach IH He]; [reflexivity|].
  now rewrite handle_scale_factor.
Qed.

Lemma numbered_rect_ok rs : forall n,
  Forall rect_ok rs -> Forall (fun e => rect_ok (fst e)) (numbered rs n).
Proof.
  induction rs as [|r rs IH]; intros n Hok; [constructor|].
  inversion Hok; subst. rewrite numbered_cons. constructor; [assumption|now apply IH].
Qed.

(** X10.  At a scale factor [2 ^ (- k)] (1.0, 0.5, 0.25, ...) the
    conversions of an operator session's regions never fail and never
    round: when every rectangle's corners multiplied by [2 ^ k] make a
    box the crop accepts, the regions are cropped in the order they were
    drawn, each with that box; and the regions are returned in no other
    case. *)
Theorem session_crop_at_power_of_two k w :
  0 <= k <= 64 ->
  reachable (pow2_scale k) w ->
  (Forall (fun e => croppable (scaled_box k (fst e))) (rectangles w) ->
   get_cropped_regions w =
     Ok (map (fun e => (snd e, scaled_box k (fst e))) (rectangles w))) /\
  (forall regions, get_cropped_regions w = Ok regions ->
   Forall (fun e => croppable (scaled_box k (fst e))) (rectangles w)).
Proof.
  intros Hk Hreach.
  destruct (session_inv_reachable _ w Hreach) as (rs & Erect & _ & Hok & _).
  pose proof (reachable_scale_factor _ _ Hreach) as Hsf.
  pose proof (numbered_rect_ok rs 1 Hok) as Hrects.
  unfold get_cropped_regions. rewrite Erect, sorted_numbered, Hsf. cbn [rbind].
  split.
  - now apply crop_all_pow2.
  - now apply crop_all_pow2_inv.
Qed.

End CropOrder.

(** * Further properties of the spreadsheet loader *)

Section LoaderRows.
Context {RT : Runtime}.

Lemma subseq_refl {A} (l : list A) : subseq l l.
Proof. induction l; constructor; assumption. Qed.

Lemma subseq_trans {A} (a b c : list A) : subseq a b -> subseq b c -> subseq a c.
Proof.
  intros Hab Hbc. revert a Hab.
  induction Hbc as [l|x s l Hsl IH|x s l Hsl IH]; intros a Hab.
  - inversion Hab; subst. constructor.
  - apply subseq_skip. now apply IH.
  - inversion Hab; subst.
    + constructor.
    + apply subseq_skip. now apply IH.
    + apply subseq_take. now apply IH.
Qed.

Lemma subseq_skipn {A} n : forall l : list A, subseq (skipn n l) l.
Proof.
  induction n as [|n IH]; intros l; [apply subseq_refl|].
  destruct l as [|x l]; [constructor|]. cbn [skipn]. apply subseq_skip, IH.
Qed.

Lemma subseq_tl {A} (l : list A) : subseq (tl l) l.
Proof. destruct l; [constructor|]. apply subseq_skip, subseq_refl. Qed.

Lemma subseq_filter {A} (f : A -> bool) (l : list A) : subseq (filter f l) l.
Proof.
  induction l as [|x l IH]; [constructor|]. cbn [filter].
  destruct (f x); [apply subseq_take|apply subseq_skip]; exact IH.
Qed.

Lemma without_score_label_rows df :
  columns (without_score_label_row df) = columns df /\
  subseq (rows (without_score_label_row df)) (rows df).
Proof.
  unfold without_score_label_row. destruct (rows df) as [|first rest] eqn:E.
  - rewrite E. split; [reflexivity|constructor].
  - destruct (is_score_label_row first).
    + unfold drop_first_row. cbn [columns rows]. rewrite E. split; [reflexivity|].
      apply subseq_tl.
    + rewrite E. split; [reflexivity|apply subseq_refl].
Qed.

(** X11.  The table [load_excel] stores takes its column labels from one
    of the first five rows of the sheet; its data rows are rows of the
    sheet below that row, in sheet order, none repeated or invented, and
    none of them is empty in every cell. *)
Theorem loaded_rows_come_from_sheet (g : grid) :
  exists h,
    (h < 5)%nat /\
    columns (load_excel g) = header_labels (nth h g []) /\
    subseq (rows (load_excel g)) (skipn (S h) g) /\
    Forall (fun row => all_missing row = false) (rows (load_excel g)).
Proof.
  rewrite load_excel_unfold.
  assert (Hdrop : forall df,
    Forall (fun row => all_missing row = false) (rows (dropna_all df))).
  { intros df. unfold dropna_all. cbn [rows]. apply Forall_forall.
    intros row Hin. apply filter_In in Hin. destruct Hin as (_ & Hin).
    now apply negb_true_iff in Hin. }
  pose proof (find_header_row_spec g) as Hspec.
  destruct (find_header_row g) as [h|].
  - destruct Hspec as (Hh & _). exists h.
    destruct (without_score_label_rows (read_excel g h)) as (Ec & Hsub).
    split; [lia|]. split; [cbn [dropna_all columns]; rewrite Ec; reflexivity|].
    split; [|apply Hdrop].
    unfold dropna_all. cbn [rows].
    eapply subseq_trans; [apply subseq_filter|exact Hsub].
  - exists 0%nat. split; [lia|]. split; [reflexivity|]. split; [|apply Hdrop].
    unfold dropna_all. cbn [rows]. apply subseq_filter.
Qed.

End LoaderRows.

(** * Further properties of the analysis *)

Section ColumnStatistics.
Context {RT : Runtime}.

(** What one round of the row loop does to the tally: nothing, one more
    wrong answer under the row's name, or one more correct answer. *)
Lemma score_row_effect df name_column col t row t' :
  score_row df name_column col t row = Ok t' ->
  (t' = t /\ forall name, ~ scored_zero df name_column col row name)
  \/ (exists name,
        scored_zero df name_column col row name /\
        (forall name', scored_zero df name_column col row name' -> name' = name) /\
        t' = {| t_wrong_students := t_wrong_students t ++ [name];
                t_correct_count := t_correct_count t;
                t_wrong_count := t_wrong_count t + 1;
                t_total_students := t_total_students t + 1 |})
  \/ (t' = {| t_wrong_students := t_wrong_students t;
              t_correct_count := t_correct_count t + 1;
              t_wrong_count := t_wrong_count t;
              t_total_students := t_total_students t + 1 |} /\
      forall name, ~ scored_zero df name_column col row name).
Proof.
  unfold score_row.
  destruct (getcell df row name_column) as [name_cell|] eqn:En; [|discriminate].
  cbn [rbind].
  destruct (isna name_cell || str_eqb (strip (py_str name_cell)) []) eqn:Hblank.
  { intros [= <-]. left. split; [reflexivity|].
    intros name (c & sc & v & E1 & (Hna & Hbl & _) & _).
    rewrite En in E1. injection E1 as <-. rewrite Hna, Hbl in Hblank. discriminate. }
  destruct (str_in (strip (py_str name_cell)) HEADER_ECHOES) eqn:Hecho.
  { intros [= <-]. left. split; [reflexivity|].
    intros name (c & sc & v & E1 & (_ & _ & Hec) & _).
    rewrite En in E1. injection E1 as <-. rewrite Hec in Hecho. discriminate. }
  destruct (getcell df row col) as [score|] eqn:Es; [|discriminate]. cbn [rbind].
  destruct (str_in (strip (py_str score)) UNANSWERED) eqn:Hun.
  { intros [= <-]. left. split; [reflexivity|].
    intros name (c & sc & v & _ & _ & _ & E2 & Hu & _).
    rewrite Es in E2. injection E2 as <-. rewrite Hu in Hun. discriminate. }
  destruct (py_float score) as [score_val|e] eqn:Ef.
  - destruct (is_zero score_val) eqn:Hz; intros [= <-].
    + right. left. exists (strip (py_str name_cell)). split.
      * exists name_cell, score, score_val.
        apply orb_false_iff in Hblank. destruct Hblank as (Hna & Hbl).
        repeat split; assumption.
      * split; [|reflexivity].
        intros name' (c & sc & v & E1 & _ & -> & _).
        rewrite En in E1. now injection E1 as <-.
    + right. right. split; [reflexivity|].
      intros name (c & sc & v & _ & _ & _ & E2 & _ & Ef' & Hz').
      rewrite Es in E2. injection E2 as <-. rewrite Ef in Ef'. injection Ef' as <-.
      rewrite Hz' in Hz. discriminate.
  - assert (Hno : forall name, ~ scored_zero df name_column col row name).
    { intros name (c & sc & v & _ & _ & _ & E2 & _ & Ef' & _).
      rewrite Es in E2. injection E2 as <-. rewrite Ef in Ef'. discriminate. }
    destruct e; try discriminate; intros [= <-]; left; (split; [reflexivity|exact Hno]).
Qed.

(** The only exception the row loop lets through is the [OverflowError]
    of a cell that is an integer beyond the float range. *)
Lemma score_row_raises df name_column col t row e :
  In name_column (columns df) -> In col (columns df) ->
  score_row df name_column col t row = Raise e ->
  e = OverflowError /\ exists c, In c row /\ py_float c = Raise OverflowError.
Proof.
  intros Hn Hc. unfold score_row.
  destruct (getcell_In df row _ Hn) as (name & -> & _). cbn [rbind].
  destruct (isna name || str_eqb (strip (py_str name)) []); [discriminate|].
  destruct (str_in (strip (py_str name)) HEADER_ECHOES); [discriminate|].
  destruct (getcell_In df row _ Hc) as (score & -> & Hs). cbn [rbind].
  destruct (str_in (strip (py_str score)) UNANSWERED); [discriminate|].
  destruct (py_float score) as [v|e'] eqn:E.
  - destruct (is_zero v); discriminate.
  - destruct (py_float_exn _ _ E) as [ -> | [ -> | -> ] ]; try discriminate.
    intros [= <-]. split; [reflexivity|]. exists score. split; [|exact E].
    destruct Hs as [->|Hs]; [now rewrite py_float_NaN in E|exact Hs].
Qed.

Lemma score_rows_effect df name_column col rs : forall t t' n,
  score_rows df name_column col t rs = Ok t' ->
  tally_ok t n ->
  tally_ok t' (n + Z.of_nat (List.length rs)) /\
  exists names,
    t_wrong_students t' = t_wrong_students t ++ names /\
    forall name, In name names <->
                 exists row, In row rs /\ scored_zero df name_column col row name.
Proof.
  induction rs as [|row rs IH]; intros t t' n; cbn [score_rows].
  - intros [= <-] Hok. split.
    + cbn [List.length Z.of_nat]. now rewrite Z.add_0_r.
    + exists []. split; [now rewrite app_nil_r|].
      intros name. split; [intros []|intros (row & [] & _)].
  - destruct (score_row df name_column col t row) as [t1|] eqn:E1; [|discriminate].
    cbn [rbind]. intros Hrs Hok.
    assert (H1 : tally_ok t1 (n + 1) /\
                 exists names1, t_wrong_students t1 = t_wrong_students t ++ names1 /\
                   forall name, In name names1 <-> scored_zero df name_column col row name).
    { destruct Hok as (Hw & Hc & Hsum & Ht).
      destruct (score_row_effect _ _ _ _ _ _ E1)
        as [(-> & Hno)|[(name1 & Hz & Huniq & ->)|(-> & Hno)]].
      - split; [repeat split; auto; lia|].
        exists []. split; [now rewrite app_nil_r|].
        intros name. split; [intros []|intros H; exact (Hno _ H)].
      - split.
        + unfold tally_ok. cbn [t_wrong_students t_correct_count t_wrong_count
                                t_total_students].
          rewrite length_app. cbn [List.length]. repeat split; lia.
        + exists [name1]. split; [reflexivity|].
          intros name. split.
          * intros [<-|[]]. exact Hz.
          * intros H. left. symmetry. now apply Huniq.
      - split.
        + unfold tally_ok. cbn [t_wrong_students t_correct_count t_wrong_count
                                t_total_students]. repeat split; lia.
        + exists []. split; [now rewrite app_nil_r|].
          intros name. split; [intros []|intros H; exact (Hno _ H)]. }
    destruct H1 as (Hok1 & names1 & Ew1 & Hn1).
    destruct (IH t1 t' (n + 1) Hrs Hok1) as (Hok' & names & Ew & Hn).
    split.
    + replace (n + Z.of_nat (List.length (row :: rs)))
        with (n + 1 + Z.of_nat (List.length rs)) by (cbn [List.length]; lia).
      exact Hok'.
    + exists (names1 ++ names). split; [now rewrite Ew, Ew1, app_assoc|].
      intros name. rewrite in_app_iff, Hn1, Hn. split.
      * intros [H|(r & Hr & H)]; [exists row; split; [now left|exact H]|].
        exists r. split; [now right|exact H].
      * intros (r & [<-|Hr] & H); [now left|]. right. now exists r.
Qed.

Lemma score_rows_raises df name_column col rs : forall t e,
  In name_column (columns df) -> In col (columns df) ->
  score_rows df name_column col t rs = Raise e ->
  e = OverflowError /\
  exists row c, In row rs /\ In c row /\ py_float c = Raise OverflowError.
Proof.
  induction rs as [|row rs IH]; intros t e Hn Hc; cbn [score_rows]; [discriminate|].
  destruct (score_row df name_column col t row) as [t1|e1] eqn:E1; cbn [rbind].
  - intros H. destruct (IH _ _ Hn Hc H) as (-> & r & c & Hr & Hin & Hf).
    split; [reflexivity|]. exists r, c. split; [now right|]. now split.
  - intros [= <-].
    destruct (score_row_raises _ _ _ _ _ _ Hn Hc E1) as (-> & c & Hin & Hf).
    split; [reflexivity|]. exists row, c. split; [now left|]. now split.
Qed.

Lemma empty_tally_ok : tally_ok empty_tally 0.
Proof. repeat split; cbn; lia. Qed.

Lemma score_column_effect df name_column col s :
  score_column df name_column col = Ok s ->
  column_name s = col /\
  stats_ok (Z.of_nat (List.length (rows df))) s /\
  correct_rate s = rate (correct_count s) (correct_count s + wrong_count s) /\
  forall name, In name (wrong_students s) <->
               exists row, In row (rows df) /\ scored_zero df name_column col row name.
Proof.
  unfold score_column.
  destruct (score_rows df name_column col empty_tally (rows df)) as [t|] eqn:E;
    [|discriminate].
  cbn [rbind]. intros [= <-].
  destruct (score_rows_effect _ _ _ _ _ _ 0 E empty_tally_ok)
    as ((Hw & Hc & Hsum & _) & names & Ew & Hn).
  cbn [column_name wrong_students correct_count wrong_count correct_rate].
  split; [reflexivity|]. split; [repeat split; auto; lia|]. split; [reflexivity|].
  intros name. rewrite Ew. cbn [empty_tally t_wrong_students app]. apply Hn.
Qed.

Lemma score_columns_loop_Forall df name_column (P : QuestionStats -> Prop) cols :
  forall stats0 stats,
  (forall e s, In e cols -> score_column df name_column (snd e) = Ok s -> P s) ->
  Forall (fun e => P (snd e)) stats0 ->
  score_columns_loop df name_column cols stats0 = Ok stats ->
  Forall (fun e => P (snd e)) stats.
Proof.
  induction cols as [|[idx col] cols IH]; intros stats0 stats Hcol H0;
    cbn [score_columns_loop].
  - now intros [= <-].
  - destruct (score_column df name_column col) as [s|] eqn:Es; [|discriminate].
    cbn [rbind]. apply IH.
    + intros e s' He. apply Hcol. now right.
    + apply Forall_app. split; [exact H0|]. constructor; [|constructor].
      cbn [snd]. exact (Hcol (idx, col) s (or_introl eq_refl) Es).
Qed.

Lemma score_columns_loop_raises df name_column cols : forall stats0 e,
  In name_column (columns df) ->
  (forall c, In c cols -> In (snd c) (columns df)) ->
  score_columns_loop df name_column cols stats0 = Raise e ->
  e = OverflowError /\
  exists row c, In row (rows df) /\ In c row /\ py_float c = Raise OverflowError.
Proof.
  induction cols as [|[idx col] cols IH]; intros stats0 e Hn Hc;
    cbn [score_columns_loop]; [discriminate|].
  unfold score_column at 1.
  destruct (score_rows df name_column col empty_tally (rows df)) as [t|e1] eqn:E;
    cbn [rbind].
  - apply IH; [exact Hn|]. intros c H. apply Hc. now right.
  - intros [= <-]. apply (score_rows_raises _ _ _ _ _ _ Hn) in E; [exact E|].
    exact (Hc (idx, col) (or_introl eq_refl)).
Qed.

Lemma find_name_column_raises cols e :
  find_name_column cols = Raise e -> cols = [] /\ e = IndexError.
Proof.
  unfold find_name_column. destruct (find is_name_header cols); [discriminate|].
  destruct cols as [|a [|b [|c cols]]]; cbn; try discriminate.
  now intros [= <-].
Qed.

(** X12.  Every record the analysis returns is consistent: the wrong
    count is the length of the list of wrong students, the correct count
    is not negative, and the two together do not exceed the number of rows
    of the table. *)
Theorem statistics_are_consistent (df : DataFrame) stats :
  analyze_questions df = Ok stats ->
  Forall (fun e => stats_ok (Z.of_nat (List.length (rows df))) (snd e)) stats.
Proof.
  unfold analyze_questions.
  destruct (find_name_column (columns df)) as [name_column|]; [|discriminate].
  cbn [rbind]. cbv zeta.
  apply (score_columns_loop_Forall df name_column
           (stats_ok (Z.of_nat (List.length (rows df))))); [|constructor].
  intros e s _ Hs. now apply score_column_effect in Hs.
Qed.

(** X13.  The wrong list of a record holds exactly the names of the
    students scored zero in the record's column: a name is on the list if
    and only if some row of the table passes the name checks with that
    name, is answered in that column, and converts to a zero there. *)
Theorem wrong_list_is_the_zero_scorers (df : DataFrame) name_column stats k s name :
  find_name_column (columns df) = Ok name_column ->
  analyze_questions df = Ok stats ->
  In (k, s) stats ->
  (In name (wrong_students s) <->
   exists row, In row (rows df) /\ scored_zero df name_column (column_name s) row name).
Proof.
  intros En. unfold analyze_questions. rewrite En. cbn [rbind]. cbv zeta.
  intros Hloop Hin.
  assert (H : Forall (fun e => forall name, In name (wrong_students (snd e)) <->
              exists row, In row (rows df) /\
                scored_zero df name_column (column_name (snd e)) row name) stats).
  { refine (score_columns_loop_Forall df name_column
             (fun s => forall name, In name (wrong_students s) <->
                exists row, In row (rows df) /\
                  scored_zero df name_column (column_name s) row name)
             _ [] stats _ (Forall_nil _) Hloop).
    cbv beta. intros e s' _ Hs. apply score_column_effect in Hs.
    destruct Hs as (-> & _ & _ & Hs). exact Hs. }
  rewrite Forall_forall in H. exact (H (k, s) Hin name).
Qed.

(** X14.  The analysis fails in two ways only: with [IndexError] on a
    table without columns, and with [OverflowError] when some cell of a
    row is an integer too large for a float. *)
Theorem analysis_failures (df : DataFrame) e :
  analyze_questions df = Raise e ->
  (columns df = [] /\ e = IndexError) \/
  (columns df <> [] /\ e = OverflowError /\
   exists row c, In row (rows df) /\ In c row /\ py_float c = Raise OverflowError).
Proof.
  unfold analyze_questions.
  destruct (find_name_column (columns df)) as [name_column|e0] eqn:En; cbn [rbind].
  - cbv zeta. intros H. right.
    pose proof (find_name_column_In _ _ En) as Hin.
    split; [intros E0; rewrite E0 in Hin; exact Hin|].
    apply (score_columns_loop_raises _ _ _ _ _ Hin) in H; [exact H|].
    intros c Hc. apply In_enumerate in Hc.
    now apply (select_score_columns_incl name_column).
  - intros [= <-]. left. now apply find_name_column_raises.
Qed.

End ColumnStatistics.

(** * The correct rate at its extremes *)

Section RateExtremes.





Context {RT : Runtime}.


End RateExtremes.

(** * Slides, validation and the main window *)

Section Pairing.
Context {RT : Runtime}.

Lemma score_columns_loop_keys df name_column cols : forall stats0 stats,
  score_columns_loop df name_column cols stats0 = Ok stats ->
  map fst stats = map fst stats0 ++ map fst cols.
Proof.
  induction cols as [|[idx col] cols IH]; intros stats0 stats; cbn [score_columns_loop].
  - intros [= <-]. cbn. now rewrite app_nil_r.
  - destruct (score_column df name_column col) as [s|]; [|discriminate]. cbn [rbind].
    intros H. rewrite (IH _ _ H), map_app, <- app_assoc. reflexivity.
Qed.

Lemma analyze_keys df stats :
  analyze_questions df = Ok stats ->
  map fst stats = map Z.of_nat (seq 1 (List.length stats)).
Proof.
  unfold analyze_questions.
  destruct (find_name_column (columns df)) as [name_column|]; [|discriminate].
  cbn [rbind]. cbv zeta. intros H. apply (score_columns_loop_keys df) in H.
  cbn [map app] in H. rewrite (enumerate_fst _ 1%nat) in H.
  assert (El : List.length stats =
               List.length (select_score_columns (classify_columns name_column (columns df)))).
  { rewrite <- (length_map fst stats), H, length_map, length_seq. reflexivity. }
  now rewrite El.
Qed.

Lemma dict_find_seq : forall stats (k i : nat),
  map fst stats = map Z.of_nat (seq k (List.length stats)) ->
  dict_find (Int (Z.of_nat (k + i))) stats = option_map snd (nth_error stats i).
Proof.
  induction stats as [|[k0 s] stats IH]; intros k i Hk.
  - now destruct i.
  - cbn [map fst List.length seq] in Hk. injection Hk as -> Hk.
    cbn [dict_find]. unfold num_eqb. cbn [num_compare].
    destruct i as [|i].
    + rewrite Nat.add_0_r, Z.compare_refl. reflexivity.
    + destruct (Z.compare_spec (Z.of_nat k) (Z.of_nat (k + S i))) as [H|H|H]; try lia.
      replace (k + S i)%nat with (S k + i)%nat by lia.
      cbn [nth_error]. now apply IH.
Qed.

Lemma numbered_nth rs : forall (k : Z) (i : nat) e,
  nth_error (numbered rs k) i = Some e -> snd e = num_atom (k + Z.of_nat i).
Proof.
  induction rs as [|r rs IH]; intros k i e.
  - now destruct i.
  - rewrite numbered_cons. destruct i as [|i]; cbn [nth_error].
    + intros [= <-]. cbn [snd]. unfold num_atom. now rewrite Z.add_0_r.
    + intros H. rewrite (IH _ _ _ H). unfold num_atom. do 3 f_equal. lia.
Qed.

(** X16.  In a report made from an operator session, the region drawn
    in position [i] (counting from 0) is numbered [i + 1] and is given the
    statistics of the scored column in the same position; a region drawn
    beyond the last scored column is given none. *)
Theorem drawn_region_meets_its_column sf (w : ImageCropWidget) (df : DataFrame)
    stats (i : nat) e :
  reachable sf w ->
  analyze_questions df = Ok stats ->
  nth_error (rectangles w) i = Some e ->
  snd e = num_atom (Z.of_nat i + 1) /\
  stats_get (snd e) stats = Ok (option_map snd (nth_error stats i)).
Proof.
  intros Hreach Hstats Hnth.
  destruct (session_inv_reachable _ w Hreach) as (rs & Erect & _).
  rewrite Erect in Hnth. apply numbered_nth in Hnth.
  replace (1 + Z.of_nat i) with (Z.of_nat i + 1) in Hnth by lia.
  split; [exact Hnth|]. rewrite Hnth. unfold num_atom, stats_get. cbn [as_num].
  f_equal. replace (Z.of_nat i + 1) with (Z.of_nat (1 + i)) by lia.
  apply dict_find_seq. exact (analyze_keys df stats Hstats).
Qed.

End Pairing.

Section ValidationAndAnalysis.
Context {RT : Runtime}.

Lemma validate_fold cols : forall v,
  let full := fun col => contains FULL_SCORE (py_str col) in
  let v' := fold_left validate_column cols v in
  v_score_columns v' = v_score_columns v ++ filter full cols /\
  v_objective_cols v' = v_objective_cols v ++
    filter (fun col => full col && contains OBJECTIVE_DASH (py_str col)) cols /\
  v_subjective_cols v' = v_subjective_cols v ++
    filter (fun col => full col && negb (contains OBJECTIVE_DASH (py_str col))
                       && contains SUBJECTIVE_DASH (py_str col)) cols.
Proof.
  cbv zeta.
  induction cols as [|col cols IH]; intros v; cbn [fold_left filter].
  - now rewrite !app_nil_r.
  - destruct (IH (validate_column v col)) as (-> & -> & ->).
    unfold validate_column.
    destruct (contains FULL_SCORE (py_str col)); cbn [andb]; [|auto].
    destruct (contains OBJECTIVE_DASH (py_str col)); cbn [negb andb];
      [|destruct (contains SUBJECTIVE_DASH (py_str col))];
      cbn [v_score_columns v_objective_cols v_subjective_cols];
      rewrite <- ?app_assoc; auto.
Qed.

Lemma subseq_filter_impl {A} (f g : A -> bool) (l : list A) :
  (forall x, f x = true -> g x = true) -> subseq (filter f l) (filter g l).
Proof.
  intros Himp. induction l as [|x l IH]; [constructor|]. cbn [filter].
  destruct (f x) eqn:Ef.
  - rewrite (Himp _ Ef). now apply subseq_take.
  - destruct (g x); [now apply subseq_skip|exact IH].
Qed.

(** X17.  The validation message and the analysis agree in one
    direction: every column validation counts as a question column is a
    question column for the analysis, every column it counts as
    subjective is a subjective column for the analysis and is scored,
    both in the same order; and validation never counts a column as
    objective and subjective at once. *)
Theorem validation_columns_are_analysed (name_column : scalar) (cols : list scalar) :
  let v := validate_columns cols in
  let q := classify_columns name_column cols in
  subseq (v_score_columns v) (all_question_columns q) /\
  subseq (v_subjective_cols v) (subjective_columns q) /\
  (forall col, In col (v_subjective_cols v) -> In col (select_score_columns q)) /\
  (forall col, In col (v_objective_cols v) -> ~ In col (v_subjective_cols v)).
Proof.
  cbv zeta. unfold validate_columns.
  destruct (validate_fold cols no_validation_columns) as (Es & Eo & Eu).
  cbn [no_validation_columns v_score_columns v_objective_cols v_subjective_cols app]
    in Es, Eo, Eu.
  rewrite Es, Eo, Eu.
  pose proof (classify_columns_filter name_column cols) as Hc. unfold lists_of in Hc.
  injection Hc as Ea Esub _.
  assert (Hsub : subseq
    (filter (fun col => contains FULL_SCORE (py_str col)
                        && negb (contains OBJECTIVE_DASH (py_str col))
                        && contains SUBJECTIVE_DASH (py_str col)) cols)
    (subjective_columns (classify_columns name_column cols))).
  { rewrite Esub. apply subseq_filter_impl. intros col H.
    apply andb_true_iff in H. destruct H as (H & Hs).
    apply andb_true_iff in H. destruct H as (Hf & _).
    unfold goes_subjective, is_question_header, is_subjective_header.
    now rewrite Hf, Hs. }
  split; [|split; [exact Hsub|split]].
  - rewrite Ea. apply subseq_filter_impl. intros col H.
    unfold is_question_header. now rewrite H.
  - intros col Hin. rewrite select_score_columns_spec.
    assert (Hin' : In col (subjective_columns (classify_columns name_column cols))).
    { clear - Hsub Hin. induction Hsub as [l|x s l Hsl IH|x s l Hsl IH].
      - destruct Hin.
      - right. now apply IH.
      - destruct Hin as [<-|Hin]; [now left|right; now apply IH]. }
    destruct (subjective_columns (classify_columns name_column cols));
      [destruct Hin'|exact Hin'].
  - intros col Ho Hu. apply filter_In in Ho, Hu.
    destruct Ho as (_ & Ho), Hu as (_ & Hu).
    destruct (contains FULL_SCORE (py_str col)),
             (contains OBJECTIVE_DASH (py_str col)); discriminate.
Qed.

Lemma window_df_loaded mw :
  window_reachable mw -> truthy (mw_excel_file mw) = true -> mw_df mw <> None.
Proof.
  induction 1 as [|mw filename sheet Hr IH|mw df Hr IH|mw image widget Hr IH].
  - discriminate.
  - unfold window_load_excel. destruct filename; [exact IH|].
    destruct sheet; [discriminate|exact IH].
  - discriminate.
  - exact IH.
Qed.

(** X18.  Whenever [check_ready] shows the ready caption on the generate
    button, [generate_ppt] finds nothing missing: a spreadsheet is
    loaded, an exam file is chosen and at least one region is drawn. *)
Theorem ready_caption_means_nothing_missing (mw : MainWindow) :
  window_reachable mw ->
  check_ready mw = CaptionReady ->
  missing_preconditions mw = [].
Proof.
  intros Hreach. pose proof (window_df_loaded mw Hreach) as Hdf.
  unfold check_ready, missing_preconditions.
  destruct (mw_crop_widget mw) as [w|].
  - destruct (truthy (mw_excel_file mw)) eqn:Ef; cbn [andb negb].
    + destruct (truthy (mw_exam_image mw)) eqn:Ei; cbn [negb]; [|discriminate].
      destruct (rectangles w) as [|r rs]; cbn [List.length Nat.ltb Nat.leb Nat.eqb];
        [discriminate|].
      destruct (mw_df mw); [reflexivity|]. now destruct (Hdf eq_refl).
    + discriminate.
  - destruct (truthy (mw_excel_file mw)); cbn [negb]; [|discriminate].
    destruct (truthy (mw_exam_image mw)); discriminate.
Qed.

End ValidationAndAnalysis.

(** * Loading, then cropping *)

Section LoadThenCrop.
Context {RT : Runtime}.

Lemma max_qnum_numeric l : forall m r,
  max_qnum_from m l = Ok r -> Forall numeric_key l.
Proof.
  induction l as [|[rect qnum] l IH]; intros m r; [constructor|].
  cbn [max_qnum_from]. unfold py_max.
  destruct (as_num qnum) as [n|] eqn:E; [|discriminate]. cbn [rbind].
  intros H. constructor; [|exact (IH _ _ H)].
  unfold numeric_key. cbn [snd]. congruence.
Qed.

(** X19.  For a region file that loads, at a scale factor [2 ^ (- k)],
    sorting and converting never fail (the question numbers it brought
    are numbers): when every loaded rectangle's corners multiplied by
    [2 ^ k] make a box the crop accepts, every region comes out with
    that box; and the regions are returned in no other case. *)
Theorem loaded_regions_crop_exactly k (w : ImageCropWidget) config w' :
  0 <= k <= 64 ->
  scale_factor w = pow2_scale k ->
  load_regions_config w (Ok config) = (w', true) ->
  (Forall (fun e => croppable (scaled_box k (fst e))) (rectangles w') ->
   exists regions,
     get_cropped_regions w' = Ok regions /\
     Permutation (map (fun e => (snd e, scaled_box k (fst e))) (rectangles w')) regions) /\
  (forall regions, get_cropped_regions w' = Ok regions ->
   Forall (fun e => croppable (scaled_box k (fst e))) (rectangles w')).
Proof.
  intros Hk Hsf Hload.
  destruct (load_success w config w' Hload) as (items & new & m & _ & _ & Hmax & Hany).
  pose proof (Hany w) as Hw. rewrite Hload in Hw. injection Hw as ->.
  pose proof (load_rect_ok (new_widget (scale_factor w)) (Ok config)
                (Forall_nil _)) as Hok.
  rewrite Hany in Hok. cbn [fst rectangles set_store] in Hok.
  pose proof (max_qnum_numeric _ _ _ Hmax) as Hnum.
  destruct (sorted_by_qnum_perm new Hnum) as (s & Es & Hp).
  assert (Hoks : Forall (fun e => rect_ok (fst e)) s)
    by (eapply Permutation_Forall; [exact Hp|exact Hok]).
  unfold get_cropped_regions. cbn [rectangles set_store scale_factor].
  rewrite Es, Hsf. cbn [rbind]. split.
  - intros Hcrop.
    exists (map (fun e => (snd e, scaled_box k (fst e))) s).
    split; [|now apply Permutation_map].
    apply crop_all_pow2; [exact Hk|exact Hoks|].
    eapply Permutation_Forall; [exact Hp|exact Hcrop].
  - intros regions Hr.
    eapply Permutation_Forall; [apply Permutation_sym; exact Hp|].
    exact (crop_all_pow2_inv k s Hk Hoks regions Hr).
Qed.

End LoadThenCrop.

(** * The further properties at concrete inputs *)

Lemma corners_on_screen : on_screen corner_a /\ on_screen corner_b.
Proof. repeat split; vm_compute; discriminate. Qed.

Lemma two_regions_reachable_pow2 : reachable (pow2_scale 1) two_regions.
Proof. rewrite <- half_is_pow2. exact two_regions_reachable. Qed.

Lemma loaded_widget_operated : operated half loaded_widget.
Proof.
  unfold loaded_widget.
  repeat (apply operated_event; [|cbn; split; reflexivity]).
  apply operated_load, operated_new.
Qed.

Lemma loaded_widget_numeric : Forall numeric_key (rectangles loaded_widget).
Proof.
  vm_compute rectangles.
  repeat (apply Forall_cons; [unfold numeric_key; cbn; discriminate|]).
  apply Forall_nil.
Qed.

Lemma ready_window_reachable : window_reachable ready_window.
Proof.
  apply (window_other
           (window_load_excel new_window (lit "scores.xlsx") (Ok titled_sheet))
           (Some (lit "exam.png")) (Some two_regions)).
  apply window_excel, window_new.
Qed.

Lemma session_numbering_witness :
  reachable half two_regions /\
  map snd (rectangles two_regions) =
    map (fun i => Atom (Num (Int (Z.of_nat i))))
        (seq 1 (List.length (rectangles two_regions))) /\
  current_question_number two_regions
    = Int (Z.of_nat (List.length (rectangles two_regions)) + 1) /\
  scale_factor two_regions = half.
Proof.
  split; [exact two_regions_reachable|].
  exact (session_numbering half two_regions two_regions_reachable).
Defined.

Lemma session_regions_exceed_minimum_witness :
  reachable half two_regions /\
  Forall (fun e => 10 < QRect_width (fst e) /\ 10 < QRect_height (fst e))
         (rectangles two_regions).
Proof.
  split; [exact two_regions_reachable|].
  exact (session_regions_exceed_minimum half two_regions two_regions_reachable).
Defined.

Lemma drag_creates_region_witness :
  on_screen corner_a /\ on_screen corner_b /\
  let w' := mouseReleaseEvent (mousePressEvent two_regions LeftButton corner_a)
              LeftButton corner_b in
  (rectangles w' =
     rectangles two_regions ++
       [(QRect_normalized (QRect_of_points corner_a corner_b),
         Atom (Num (current_question_number two_regions)))] /\
   current_question_number w' = num_succ (current_question_number two_regions)) /\
  is_drawing w' = false /\ start_point w' = None /\ end_point w' = None.
Proof.
  split; [apply corners_on_screen|]. split; [apply corners_on_screen|].
  exact (drag_creates_region two_regions corner_a corner_b
           (proj1 corners_on_screen) (proj2 corners_on_screen)).
Defined.

Lemma undo_after_drag_witness :
  on_screen corner_a /\ on_screen corner_b /\
  long_drag corner_a corner_b = true /\
  current_question_number two_regions = Int 3 /\
  let w' := clear_last (mouseReleaseEvent
                          (mousePressEvent two_regions LeftButton corner_a)
                          LeftButton corner_b) in
  rectangles w' = rectangles two_regions /\ current_question_number w' = Int 3.
Proof.
  split; [apply corners_on_screen|]. split; [apply corners_on_screen|].
  split; [reflexivity|]. split; [reflexivity|].
  exact (undo_after_drag two_regions corner_a corner_b 3
           (proj1 corners_on_screen) (proj2 corners_on_screen) eq_refl eq_refl).
Defined.

Lemma load_replaces_store_witness :
  exists w',
    load_regions_config two_regions (Ok shuffled_config) = (w', true) /\
    exists items m,
      iter_items shuffled_config = Ok items /\
      List.length (rectangles w') = List.length items /\
      max_qnum_from (Int 0) (rectangles w') = Ok m /\
      w' = set_store two_regions (rectangles w') (num_succ m) /\
      forall w2, load_regions_config w2 (Ok shuffled_config)
                 = (set_store w2 (rectangles w') (num_succ m), true).
Proof.
  eexists. split; [vm_compute; reflexivity|].
  apply (load_replaces_store two_regions shuffled_config). vm_compute. reflexivity.
Defined.

Lemma loaded_counter_is_fresh_witness :
  exists w',
    load_regions_config two_regions (Ok shuffled_config) = (w', true) /\
    Forall int_key (rectangles w') /\
    exists c,
      current_question_number w' = Int c /\ 1 <= c /\
      Forall (fun e => key_of e < c) (rectangles w').
Proof.
  eexists. split; [vm_compute; reflexivity|].
  assert (Hk : forall A (l : list (A * json)) (zs : list Z),
            map snd l = map num_atom zs -> Forall int_key l).
  { intros A l. induction l as [|[a q] l IH]; intros zs E; [constructor|].
    destruct zs as [|z zs]; [discriminate|]. injection E as E1 E2.
    constructor; [exists z; exact E1|exact (IH zs E2)]. }
  split.
  - apply (Hk _ _ [5; 2]). reflexivity.
  - apply (loaded_counter_is_fresh two_regions shuffled_config).
    + vm_compute. reflexivity.
    + apply (Hk _ _ [5; 2]). reflexivity.
Defined.

Lemma failed_load_keeps_counter_witness :
  exists w',
    load_regions_config two_regions (Ok malformed_config) = (w', false) /\
    current_question_number w' = current_question_number two_regions /\
    scale_factor w' = scale_factor two_regions.
Proof.
  eexists. split; [vm_compute; reflexivity|].
  apply (failed_load_keeps_counter two_regions (Ok malformed_config)).
  vm_compute. reflexivity.
Defined.

Lemma saved_regions_reload_witness :
  operated half loaded_widget /\
  Forall numeric_key (rectangles loaded_widget) /\
  exists m,
    max_qnum_from (Int 0) (rectangles loaded_widget) = Ok m /\
    load_regions_config example_widget (Ok (save_regions_config loaded_widget))
      = (set_store example_widget (rectangles loaded_widget) (num_succ m), true).
Proof.
  split; [exact loaded_widget_operated|]. split; [exact loaded_widget_numeric|].
  exact (saved_regions_reload half loaded_widget example_widget
           loaded_widget_operated loaded_widget_numeric).
Defined.

Lemma regions_in_ascending_order_witness :
  map snd (rectangles loaded_widget) = map num_atom [5; 2; 6] /\
  exists regions,
    get_cropped_regions loaded_widget = Ok regions /\
    exists sorted_zs,
      map fst regions = map num_atom sorted_zs /\
      StronglySorted Z.le sorted_zs /\
      Permutation [5; 2; 6] sorted_zs.
Proof.
  split; [vm_compute; reflexivity|].
  eexists. split; [vm_compute; reflexivity|].
  apply (regions_in_ascending_order loaded_widget); vm_compute; reflexivity.
Defined.

Lemma session_crop_at_power_of_two_witness :
  0 <= 1 <= 64 /\
  reachable (pow2_scale 1) two_regions /\
  Forall (fun e => croppable (scaled_box 1 (fst e))) (rectangles two_regions) /\
  get_cropped_regions two_regions =
    Ok (map (fun e => (snd e, scaled_box 1 (fst e))) (rectangles two_regions)).
Proof.
  assert (Hk : 0 <= 1 <= 64) by lia.
  assert (Hc : Forall (fun e => croppable (scaled_box 1 (fst e)))
                 (rectangles two_regions)).
  { repeat (apply Forall_cons; [repeat split; vm_compute; discriminate|]).
    apply Forall_nil. }
  split; [exact Hk|]. split; [exact two_regions_reachable_pow2|].
  split; [exact Hc|].
  exact (proj1 (session_crop_at_power_of_two 1 two_regions Hk
                  two_regions_reachable_pow2) Hc).
Defined.

Lemma statistics_are_consistent_witness :
  exists stats,
    analyze_questions scenario_table = Ok stats /\
    Forall (fun e => stats_ok (Z.of_nat (List.length (rows scenario_table))) (snd e))
           stats.
Proof.
  eexists. split; [exact analyze_scenario|].
  exact (statistics_are_consistent scenario_table _ analyze_scenario).
Defined.

Lemma wrong_list_is_the_zero_scorers_witness :
  let name_column := nth 0 (columns scenario_table) PyNone in
  find_name_column (columns scenario_table) = Ok name_column /\
  exists stats s,
    analyze_questions scenario_table = Ok stats /\
    In (1, s) stats /\
    (In (lit "Bob") (wrong_students s) <->
     exists row, In row (rows scenario_table) /\
       scored_zero scenario_table name_column (column_name s) row (lit "Bob")).
Proof.
  cbv zeta. split; [vm_compute; reflexivity|].
  eexists. eexists. split; [exact analyze_scenario|].
  split; [left; reflexivity|].
  apply (wrong_list_is_the_zero_scorers scenario_table _ _ 1 _ (lit "Bob")
           ltac:(vm_compute; reflexivity) analyze_scenario).
  left. reflexivity.
Defined.

Lemma analysis_failures_witness :
  analyze_questions empty_table = Raise IndexError /\
  ((columns empty_table = [] /\ IndexError = IndexError) \/
   (columns empty_table <> [] /\ IndexError = OverflowError /\
    exists row c, In row (rows empty_table) /\ In c row /\
                  py_float c = Raise OverflowError)).
Proof.
  split; [reflexivity|].
  exact (analysis_failures empty_table IndexError eq_refl).
Defined.


Lemma drawn_region_meets_its_column_witness :
  reachable half two_regions /\
  exists stats e,
    analyze_questions scenario_table = Ok stats /\
    nth_error (rectangles two_regions) 1 = Some e /\
    snd e = num_atom (Z.of_nat 1 + 1) /\
    stats_get (snd e) stats = Ok (option_map snd (nth_error stats 1)).
Proof.
  split; [exact two_regions_reachable|].
  eexists. eexists. split; [exact analyze_scenario|].
  split; [vm_compute; reflexivity|].
  apply (drawn_region_meets_its_column half two_regions scenario_table _ 1%nat _
           two_regions_reachable analyze_scenario).
  vm_compute. reflexivity.
Defined.

Lemma ready_caption_means_nothing_missing_witness :
  window_reachable ready_window /\
  check_ready ready_window = CaptionReady /\
  missing_preconditions ready_window = [].
Proof.
  split; [exact ready_window_reachable|]. split; [vm_compute; reflexivity|].
  apply (ready_caption_means_nothing_missing ready_window ready_window_reachable).
  vm_compute. reflexivity.
Defined.

Lemma loaded_regions_crop_exactly_witness :
  0 <= 1 <= 64 /\
  scale_factor two_regions = pow2_scale 1 /\
  exists w',
    load_regions_config two_regions (Ok shuffled_config) = (w', true) /\
    Forall (fun e => croppable (scaled_box 1 (fst e))) (rectangles w') /\
    exists regions,
      get_cropped_regions w' = Ok regions /\
      Permutation (map (fun e => (snd e, scaled_box 1 (fst e))) (rectangles w')) regions.
Proof.
  assert (Hk : 0 <= 1 <= 64) by lia.
  split; [exact Hk|]. split; [vm_compute; reflexivity|].
  eexists. split; [vm_compute; reflexivity|].
  match goal with
  | |- ?C /\ _ =>
      assert (Hc : C)
        by (repeat (apply Forall_cons; [repeat split; vm_compute; discriminate|]);
            apply Forall_nil)
  end.
  split; [exact Hc|].
  refine (proj1 (loaded_regions_crop_exactly 1 two_regions shuffled_config _ Hk _ _) Hc);
    vm_compute; reflexivity.
Defined.
